(** * The request dispatch core of the image API server

    A shallow embedding of [server/imgapisrv.go]: the URL splitter
    [splitImagesUrl], the four per-method handlers and the entry point
    [doHandleImages], together with the properties of the routing logic
    that the specification of the server states.

    Go strings are byte strings and are modelled by [string]; an [int] is a
    [Z]; the [url.Values] of a parsed query is a finite map from keys to
    the list of their values.  What a handler does to its
    [http.ResponseWriter], to the log and to the operation handlers it
    delegates to is recorded, in order, in a trace of effects.

    The file system ([os.Stat]), the query parser ([url.ParseQuery]), the
    configuration and the status codes of the package [errorcodes] come
    from outside this file of the server: the handlers take them as
    parameters.

    The properties of the specification are numbered C1 to C10; those
    numbered X1 to X21 are read off the code itself and cover the rest of
    the file, start-up included.  C4, C6, C8, C9 and C10 hold of
    the code as the specification states them.  C3, C5 and C7 hold in the
    form given with each of them.  C1 and C2 do not hold of the code: the
    loop over the user database does not stop at the entry it accepts, and
    four cases of the action switch have no body. *)

From Stdlib Require Import ZArith String Ascii List Bool Lia.
From stdpp Require Import base option strings gmap list.

Open Scope string_scope.

(** ** Go's string primitives *)

Module GoString.

(** [strings.Index(s, substr)]: the index of the first occurrence of
    [substr] in [s], or -1. *)
Definition Index (s substr : string) : Z :=
  match index 0 substr s with
  | Some n => Z.of_nat n
  | None => (-1)%Z
  end.

(** [len(s)]. *)
Definition len (s : string) : Z := Z.of_nat (String.length s).

(** [s[lo:]].  Go panics unless [0 <= lo <= len(s)]; the two uses in
    [splitImagesUrl] are within bounds, see [splitImagesUrl_in_bounds]. *)
Definition slice_from (s : string) (lo : Z) : string :=
  substring (Z.to_nat lo) (String.length s - Z.to_nat lo) s.

(** [s[lo:hi]], in bounds when [0 <= lo <= hi <= len(s)]. *)
Definition slice (s : string) (lo hi : Z) : string :=
  substring (Z.to_nat lo) (Z.to_nat hi - Z.to_nat lo) s.

(** The one-character string holding the double quote, which the format
    strings of the source escape. *)
Definition dquote : string := String (ascii_of_nat 34) EmptyString.

(** [s] occurs in [t]. *)
Definition contains (t s : string) : Prop :=
  exists before after, t = before +:+ s +:+ after.

End GoString.

Import GoString.

(** ** Data model *)

(** A Go [error] value, as far as the server looks at it: the text that
    [err.Error()] (and the verb [%v]) prints, and what [os.IsNotExist]
    answers on it. *)
Record error := mkError {
  Error : string;
  IsNotExist : bool
}.

(** [errors.New(text)]. *)
Definition errors_New (text : string) : error :=
  {| Error := text; IsNotExist := false |}.

(** [err != nil]. *)
Definition not_nil (err : option error) : bool :=
  match err with Some _ => true | None => false end.

(** [common.UserEntry] and [common.Configuration]: the package [common] is
    imported by the server; these are the fields the server reads. *)
Record UserEntry := mkUserEntry {
  Name : string;
  Password : string
}.

Record Configuration := mkConfiguration {
  Datadir : string;
  Port : Z;
  Userdb : list UserEntry
}.

(** The status codes of the imported package [errorcodes], by name.  Their
    numeric values are not part of the server, which only passes them on. *)
Record Errorcodes := mkErrorcodes {
  InvalidParameter : Z;
  ResourceNotFound : Z;
  InternalError : Z;
  UnauthorizedError : Z;
  AccountDoesNotExist : Z;
  InsufficientServerVersion : Z
}.

(** [url.Values], a [map[string][]string]. *)
Abbreviation Values := (gmap string (list string)).

(** The JSON object of a response, a [map[string]interface{}] whose values
    are all strings in this server. *)
Abbreviation Content := (gmap string string).

(** What the server reads of an [*http.Request]: [r.Method], [r.URL.Path],
    [r.URL.RawQuery] and the result of [r.BasicAuth()], which is [None]
    when the third result [ok] is false. *)
Record Request := mkRequest {
  Method : string;
  Path : string;
  RawQuery : string;
  BasicAuth : option (string * string)
}.

(** The operation handlers the server delegates to.  They live in other
    files of the package; each is passed the response writer and the
    request besides the arguments kept here, and answers the request
    itself. *)
Inductive operation :=
| ListImages (datadir : string)
| GetImage (params : Values) (filename : string)
| GetImageIcon (params : Values) (filename : string)
| GetImageFile (params : Values) (filename : string)
| DeleteImage (params : Values) (path : string)
| DeleteImageIcon (params : Values) (path : string)
| CreateImage (params : Values) (datadir : string)
| AddImageIcon (params : Values) (path : string)
| AddImageFile (params : Values) (path : string)
| ActivateImage (params : Values) (path : string)
| UpdateImage (params : Values) (path : string)
| DisableImage (params : Values) (path : string)
| EnableImage (params : Values) (path : string).

(** One observable step of a handler. *)
Inductive effect :=
| HeaderSet (key value : string)     (* w.Header().Set(key, value) *)
| WriteHeader (code : Z)             (* w.WriteHeader(code) *)
| WriteJSON (content : Content)      (* w.Write(json.MarshalIndent(content, ...)) *)
| LogPrintf (line : string)          (* log.Printf(...), formatted *)
| Call (op : operation)              (* a call of an operation handler *)
| Panic.                             (* a run-time panic: index out of range *)

Abbreviation trace := (list effect).

(** The map literal [{"code": code, "message": message}] that every error
    response carries. *)
Definition error_content (code message : string) : option Content :=
  Some {[ "code" := code; "message" := message ]}.

(** ** The server *)

(** [sendResponse] *)
Definition sendResponse (code : Z) (content : option Content) : trace :=
  [HeaderSet "Server" "Norbye Public Images Repo"; WriteHeader code] ++
  match content with
  | Some c => [HeaderSet "Content-Type" "application/json; charset=utf-8";
               WriteJSON c]
  | None => []
  end.

(** [splitImagesUrl]: the results [(uuid, file, err)]. *)
Definition splitImagesUrl (url : string) : string * string * option error :=
  if negb (Index url "/images/" =? 0)%Z then
    (EmptyString, EmptyString, Some (errors_New "Invalid url"))
  else
    (* pick out the uuid *)
    let uuid := slice_from url 8 in
    if (len uuid =? 0)%Z then
      (uuid, EmptyString, Some (errors_New "Invalid url"))
    else
      let index := Index uuid "/" in
      if negb (index =? -1)%Z then
        (slice uuid 0 index, slice_from uuid index, None)
      else
        (uuid, EmptyString, None).

(** The error that [splitImagesUrl] returns. *)
Definition InvalidURL : error := errors_New "Invalid url".

(** How the loop over the user database ends: by the [return] inside it,
    with what was sent, or by running off the end, with the flag [found]. *)
Inductive loop_end :=
| Returned (sent : trace)
| Finished (found : bool).

Section Server.

(** The package variable [configuration]. *)
Variable configuration : Configuration.
Variable errorcodes : Errorcodes.

(** [os.Stat(name)], its error result: [None] is [nil]. *)
Variable os_Stat : string -> option error.
(** [url.ParseQuery(query)], both results. *)
Variable url_ParseQuery : string -> Values * option error.

(** [doHandleGetImages] *)
Definition doHandleGetImages (r : Request) (params : Values) : trace :=
  if (Path r =? "/images")%string then
    [Call (ListImages (Datadir configuration))]
  else
    let '(uuid, file, err) := splitImagesUrl (Path r) in
    match err with
    | Some e =>
        sendResponse (InvalidParameter errorcodes)
          (error_content "InvalidParameter" (Error e))
    | None =>
        (* check if the resource exists *)
        let filename := Datadir configuration +:+ "/" +:+ uuid in
        match os_Stat filename with
        | None =>
            sendResponse (ResourceNotFound errorcodes)
              (error_content "ResourceNotFound"
                 ("Failed to locate " +:+ filename +:+ ": <nil>"))
        | Some _ =>
            if (len file =? 0)%Z then [Call (GetImage params filename)]
            else if (file =? "/icon")%string then
              [Call (GetImageIcon params filename)]
            else if (file =? "/file")%string then
              [Call (GetImageFile params filename)]
            else
              sendResponse (ResourceNotFound errorcodes)
                (error_content "ResourceNotFound"
                   "Requested resource does not exist")
        end
    end.

(** [doHandleDeleteImages] *)
Definition doHandleDeleteImages (r : Request) (params : Values) : trace :=
  let '(uuid, file, err) := splitImagesUrl (Path r) in
  match err with
  | Some _ =>
      sendResponse (InvalidParameter errorcodes)
        (error_content "InvalidParameter" "Failed to decode URL")
  | None =>
      let path := Datadir configuration +:+ "/" +:+ uuid in
      if (len file >? 0)%Z then
        if (file =? "/icon")%string then [Call (DeleteImageIcon params path)]
        else
          sendResponse (ResourceNotFound errorcodes)
            (error_content "ResourceNotFound" "Resource does not exists")
      else [Call (DeleteImage params path)]
  end.

(** The [switch action[0]] of [doHandlePostImages].  A Go [case] does not
    fall through into the next one: the four cases with an empty body do
    nothing. *)
Definition switch_action (action0 : string) (params : Values) (path : string)
  : trace :=
  if (action0 =? "activate")%string then [Call (ActivateImage params path)]
  else if (action0 =? "update")%string then [Call (UpdateImage params path)]
  else if (action0 =? "disable")%string then [Call (DisableImage params path)]
  else if (action0 =? "enable")%string then [Call (EnableImage params path)]
  else if (action0 =? "export")%string then []
  else if (action0 =? "copy-remote")%string then []
  else if (action0 =? "import-remote")%string then []
  else if (action0 =? "import")%string then []
  else if (action0 =? "channel-add")%string then
    (* Not implemented yet *)
    sendResponse (InsufficientServerVersion errorcodes)
      (error_content "InsufficientServerVersion"
         ("action=" +:+ dquote +:+ action0 +:+ dquote +:+ " is not implemented"))
  else
    sendResponse (InvalidParameter errorcodes)
      (error_content "InvalidParameter"
         ("Invalid action " +:+ dquote +:+ action0 +:+ dquote)).

(** [doHandlePostImages] *)
Definition doHandlePostImages (r : Request) (params : Values) : trace :=
  if ("/images" =? Path r)%string then
    [Call (CreateImage params (Datadir configuration))]
  else
    let '(uuid, file, err) := splitImagesUrl (Path r) in
    match err with
    | Some _ =>
        sendResponse (InvalidParameter errorcodes)
          (error_content "InvalidParameter" "Failed to decode URL")
    | None =>
        let path := Datadir configuration +:+ "/" +:+ uuid in
        match os_Stat path with
        | Some err =>
            if IsNotExist err then
              sendResponse (ResourceNotFound errorcodes)
                (error_content "ResourceNotFound" "Failed to locate resource")
            else
              sendResponse (InternalError errorcodes)
                (error_content "InternalError"
                   ("Failed to locate resource " +:+ Error err))
        | None =>
            if (file =? "/icon")%string then [Call (AddImageIcon params path)]
            else if (file =? "/acl")%string then
              sendResponse (InsufficientServerVersion errorcodes)
                (error_content "InsufficientServerVersion"
                   "acl is not implemented")
            else if (file =? EmptyString)%string then
              (* the path just contains the UUID and optional parameters *)
              match params !! "action" with
              | Some action =>
                  match action with
                  | action0 :: _ => switch_action action0 params path
                  | [] => [Panic]
                  end
              | None =>
                  sendResponse (InvalidParameter errorcodes)
                    (error_content "InvalidParameter"
                       "action parameter not specified")
              end
            else
              (* The request was for an invalid resource *)
              sendResponse (ResourceNotFound errorcodes)
                (error_content "ResourceNotFound" "Invalid URL specified")
        end
    end.

(** [doHandlePutImages] *)
Definition doHandlePutImages (r : Request) (params : Values) : trace :=
  let '(uuid, file, err) := splitImagesUrl (Path r) in
  if not_nil err || negb (file =? "/file")%string then
    sendResponse (InvalidParameter errorcodes)
      (error_content "InvalidParameter" "Failed to decode URL")
  else
    let path := Datadir configuration +:+ "/" +:+ uuid in
    [Call (AddImageFile params path)].

(** The [for] loop of [doHandleImages] over [configuration.Userdb], from
    the entries still to visit and the current value of [found]. *)
Fixpoint userdb_loop (username password : string) (entries : list UserEntry)
    (found : bool) : loop_end :=
  match entries with
  | [] => Finished found
  | entry :: entries' =>
      if negb (username =? Name entry)%string then
        userdb_loop username password entries' found
      else
        (* found = true *)
        if negb (password =? Password entry)%string then
          Returned
            (LogPrintf ("Invalid username password combo for " +:+ username) ::
             sendResponse (UnauthorizedError errorcodes)
               (error_content "UnauthorizedError"
                  "Invalid username/password combination"))
        else
          userdb_loop username password entries' true
  end.

(** The second half of [doHandleImages]: the query is parsed and the
    request dispatched on its method, with the value that the first half
    left in [authenticated]. *)
Definition dispatch (r : Request) (authenticated : bool) : trace :=
  let '(parameters, err) := url_ParseQuery (RawQuery r) in
  match err with
  | Some _ =>
      sendResponse (InternalError errorcodes)
        (error_content "InternalError" "Failed to parse query")
  | None =>
      if (len (Method r) =? 0)%Z || (Method r =? "GET")%string then
        doHandleGetImages r parameters
      else if (Method r =? "DELETE")%string then
        if authenticated then doHandleDeleteImages r parameters
        else [WriteHeader (UnauthorizedError errorcodes)]
      else if (Method r =? "POST")%string then
        if authenticated then doHandlePostImages r parameters
        else [WriteHeader (UnauthorizedError errorcodes)]
      else if (Method r =? "PUT")%string then
        if authenticated then doHandlePutImages r parameters
        else [WriteHeader (UnauthorizedError errorcodes)]
      else []
  end.

(** [doHandleImages] *)
Definition doHandleImages (r : Request) : trace :=
  match BasicAuth r with
  | Some (username, password) =>
      match userdb_loop username password (Userdb configuration) false with
      | Returned sent => sent
      | Finished found =>
          if negb found then
            LogPrintf ("User " +:+ username +:+ " does not exists") ::
            sendResponse (AccountDoesNotExist errorcodes)
              (error_content "AccountDoesNotExist"
                 ("User " +:+ username +:+ " does not exist"))
          else dispatch r true
      end
  | None => dispatch r false
  end.

(** The requests that get past the first half of [doHandleImages], with the
    value they leave in [authenticated]: those without credentials, and
    those whose credentials the loop over the user database accepts. *)
Definition authenticates (r : Request) (authenticated : bool) : Prop :=
  match BasicAuth r with
  | Some (username, password) =>
      userdb_loop username password (Userdb configuration) false = Finished true
      /\ authenticated = true
  | None => authenticated = false
  end.

End Server.

(** ** Start-up *)

(** The functions that [StartImageServer] registers: [doHandleImages] of
    this file, and [ListChannels] and [Ping], which live in other files of
    the package. *)
Inductive handler :=
| ImagesHandler
| ChannelsHandler
| PingHandler.

(** One observable step of [StartImageServer]. *)
Inductive startup_effect :=
| AssignConfiguration (conf : Configuration)    (* configuration = conf *)
| MkdirAll (path : string) (perm : Z)           (* os.MkdirAll(path, perm) *)
| HandleFunc (pattern : string) (h : handler)   (* http.HandleFunc(pattern, h) *)
| ListenAndServe (addr : string)                (* http.ListenAndServe(addr, nil) *)
| StartupPanic (message : string).              (* panic(message) *)

(** One call [http.HandleFunc(pattern, h)] followed by [rest].  The call
    panics when the default mux refuses the pattern, as it does for one
    that is registered already; [refuses earlier pattern] is the message of
    that panic, if any, on the mux as it stands once this run has
    registered the patterns [earlier] on top of what the mux held
    before. *)
Definition http_HandleFunc (refuses : list string -> string -> option string)
    (earlier : list string) (pattern : string) (h : handler)
    (rest : list startup_effect) : list startup_effect :=
  match refuses earlier pattern with
  | Some message => [StartupPanic message]
  | None => HandleFunc pattern h :: rest
  end.

(** The four registrations and the call that serves, which end
    [StartImageServer] when the data directory is there.  [itoa] is
    [strconv.Itoa]. *)
Definition register_and_serve (refuses : list string -> string -> option string)
    (itoa : Z -> string) (conf : Configuration) : list startup_effect :=
  http_HandleFunc refuses [] "/images" ImagesHandler
    (http_HandleFunc refuses ["/images"] "/images/" ImagesHandler
       (http_HandleFunc refuses ["/images"; "/images/"] "/channels"
          ChannelsHandler
          (http_HandleFunc refuses ["/images"; "/images/"; "/channels"] "/ping"
             PingHandler
             [ListenAndServe (":" +:+ itoa (Port conf))]))).

(** [StartImageServer].  [os_Stat] and [os_MkdirAll] give the error result
    of the two calls, [None] for [nil]; the mode [0777] is 511. *)
Definition StartImageServer (os_Stat : string -> option error)
    (os_MkdirAll : string -> Z -> option error)
    (refuses : list string -> string -> option string)
    (strconv_Itoa : Z -> string)
    (conf : Configuration) : list startup_effect :=
  AssignConfiguration conf ::
  match os_Stat (Datadir conf) with
  | Some err =>
      if IsNotExist err then
        MkdirAll (Datadir conf) 511%Z ::
        match os_MkdirAll (Datadir conf) 511%Z with
        | Some err' =>
            [StartupPanic ("Failed to create " +:+ Datadir conf +:+ ": " +:+
                           Error err')]
        | None => register_and_serve refuses strconv_Itoa conf
        end
      else register_and_serve refuses strconv_Itoa conf
  | None => register_and_serve refuses strconv_Itoa conf
  end.

(** The default mux takes the four patterns of [StartImageServer]. *)
Definition registrations_accepted
    (refuses : list string -> string -> option string) : Prop :=
  refuses [] "/images" = None /\
  refuses ["/images"] "/images/" = None /\
  refuses ["/images"; "/images/"] "/channels" = None /\
  refuses ["/images"; "/images/"; "/channels"] "/ping" = None.

(** The trace of the four registrations and of the call that serves when
    the mux takes them. *)
Definition registered_and_serving (itoa : Z -> string) (conf : Configuration)
  : list startup_effect :=
  [HandleFunc "/images" ImagesHandler;
   HandleFunc "/images/" ImagesHandler;
   HandleFunc "/channels" ChannelsHandler;
   HandleFunc "/ping" PingHandler;
   ListenAndServe (":" +:+ itoa (Port conf))].

(** ** Vocabulary of the properties *)

(** The action names that the [switch] of [doHandlePostImages] lists. *)
Definition dispatch_table : list string :=
  ["activate"; "update"; "disable"; "enable"; "export"; "copy-remote";
   "import-remote"; "import"; "channel-add"].

(** The four of them whose [case] has an empty body. *)
Definition empty_cases : list string :=
  ["export"; "copy-remote"; "import-remote"; "import"].

(** The subresource literals that the specification enumerates, written
    without the slash as in its data model and with it as the parser
    returns them. *)
Definition subresource_literals : list string :=
  [EmptyString; "file"; "icon"; "acl"; "/file"; "/icon"; "/acl"].

(** The methods that [doHandleImages] has a branch for. *)
Definition routed_methods : list string :=
  [EmptyString; "GET"; "DELETE"; "POST"; "PUT"].

(** Those of them that need credentials. *)
Definition mutating_methods : list string := ["DELETE"; "POST"; "PUT"].

(** A call of an operation handler occurs in the trace. *)
Definition delegates (t : trace) : Prop := exists op, Call op ∈ t.

(** A trace that answers the request exactly once, by delegation or by a
    structured error: one call of an operation handler and nothing else,
    or one error response with a [code] and a [message], which one log
    line may precede. *)
Inductive answers_once : trace -> Prop :=
| answer_delegated (op : operation) :
    answers_once [Call op]
| answer_error (code : Z) (name message : string) :
    answers_once (sendResponse code (error_content name message))
| answer_refused (line : string) (code : Z) (name message : string) :
    answers_once
      (LogPrintf line :: sendResponse code (error_content name message)).

Section RequestClasses.

Variable configuration : Configuration.
Variable errorcodes : Errorcodes.
Variable os_Stat : string -> option error.
Variable url_ParseQuery : string -> Values * option error.



End RequestClasses.

(** The number of answers in a trace: statuses written and operation
    handlers called. *)
Fixpoint answers (t : trace) : nat :=
  match t with
  | [] => 0
  | WriteHeader _ :: t' => S (answers t')
  | Call _ :: t' => S (answers t')
  | _ :: t' => answers t'
  end.

(** The six status codes with the name each goes by in a response. *)
Definition error_names (errorcodes : Errorcodes) : list (Z * string) :=
  [(InvalidParameter errorcodes, "InvalidParameter");
   (ResourceNotFound errorcodes, "ResourceNotFound");
   (InternalError errorcodes, "InternalError");
   (UnauthorizedError errorcodes, "UnauthorizedError");
   (AccountDoesNotExist errorcodes, "AccountDoesNotExist");
   (InsufficientServerVersion errorcodes, "InsufficientServerVersion")].

(** The two of them that answer credentials. *)
Definition credential_errors (errorcodes : Errorcodes) : list (Z * string) :=
  [(UnauthorizedError errorcodes, "UnauthorizedError");
   (AccountDoesNotExist errorcodes, "AccountDoesNotExist")].

(** Everything a run of [doHandleImages] can amount to: nothing at all, the
    panic of an index out of range, the call of one operation handler, the
    bare [UnauthorizedError] status, one error response whose status is one
    of the six codes and whose [code] is the name of that status, or a log
    line followed by such a response to the credentials. *)
Inductive outcome (errorcodes : Errorcodes) : trace -> Prop :=
| outcome_nothing : outcome errorcodes []
| outcome_panic : outcome errorcodes [Panic]
| outcome_call (op : operation) : outcome errorcodes [Call op]
| outcome_bare : outcome errorcodes [WriteHeader (UnauthorizedError errorcodes)]
| outcome_error (code : Z) (name message : string) :
    (code, name) ∈ error_names errorcodes ->
    outcome errorcodes (sendResponse code (error_content name message))
| outcome_refused (line : string) (code : Z) (name message : string) :
    (code, name) ∈ credential_errors errorcodes ->
    outcome errorcodes
      (LogPrintf line :: sendResponse code (error_content name message)).

(** The trace sets the [Content-Type] header while the status line is
    still to be written, by [WriteHeader] or by a first [Write]. *)
Fixpoint sets_content_type_early (t : trace) : bool :=
  match t with
  | [] => false
  | WriteHeader _ :: _ => false
  | WriteJSON _ :: _ => false
  | HeaderSet key _ :: t' =>
      (key =? "Content-Type")%string || sets_content_type_early t'
  | _ :: t' => sets_content_type_early t'
  end.

(** The request without its credentials. *)
Definition anonymous (r : Request) : Request :=
  {| Method := Method r; Path := Path r; RawQuery := RawQuery r;
     BasicAuth := None |}.

(** ** A sample deployment

    Concrete values for the parts the server takes from outside, used to
    run the handlers on examples. *)

Definition sample_configuration : Configuration :=
  {| Datadir := "/data"; Port := 8080;
     Userdb := [ {| Name := "a"; Password := "1" |};
                 {| Name := "a"; Password := "2" |};
                 {| Name := "b"; Password := "3" |} ] |}.

Definition sample_errorcodes : Errorcodes :=
  {| InvalidParameter := 422; ResourceNotFound := 404; InternalError := 500;
     UnauthorizedError := 401; AccountDoesNotExist := 422;
     InsufficientServerVersion := 422 |}.

(** A file system in which [/data/u] exists and nothing else. *)
Definition sample_Stat (name : string) : option error :=
  if (name =? "/data/u")%string then None
  else Some {| Error := "stat " +:+ name +:+ ": no such file or directory";
               IsNotExist := true |}.

(** [url.ParseQuery] on the few query strings of the examples: a [%] that
    no two hexadecimal digits follow is an invalid escape, which it
    reports; a key that repeats collects its values in order. *)
Definition sample_ParseQuery (query : string) : Values * option error :=
  if (query =? "q=100%")%string then
    (∅, Some (errors_New ("invalid URL escape " +:+ dquote +:+ "%" +:+ dquote)))
  else if (query =? "action=export")%string then
    ({[ "action" := ["export"] ]}, None)
  else if (query =? "action=channel-add")%string then
    ({[ "action" := ["channel-add"] ]}, None)
  else if (query =? "action=bogus&action=activate")%string then
    ({[ "action" := ["bogus"; "activate"] ]}, None)
  else if (query =? "action=activate")%string then
    ({[ "action" := ["activate"] ]}, None)
  else (∅, None).

(** ** Facts about strings *)

(** The two equations of concatenation, for rewriting. *)
Lemma append_nil_l (s : string) : EmptyString +:+ s = s.
Proof. reflexivity. Qed.

Lemma append_cons (c : ascii) (s t : string) :
  String c s +:+ t = String c (s +:+ t).
Proof. reflexivity. Qed.

Lemma append_nil_r (s : string) : s +:+ EmptyString = s.
Proof.
  induction s as [|c s IH]; [reflexivity|].
  now rewrite append_cons, IH.
Qed.

Lemma length_append (a b : string) :
  String.length (a +:+ b) = (String.length a + String.length b)%nat.
Proof.
  induction a as [|x a IH]; [reflexivity|].
  rewrite append_cons. simpl. now rewrite IH.
Qed.

Lemma substring_all (s : string) : substring 0 (String.length s) s = s.
Proof. induction s as [|c s IH]; simpl; [reflexivity | now rewrite IH]. Qed.

Lemma substring_none (s : string) : substring 0 0 s = EmptyString.
Proof. destruct s; reflexivity. Qed.

(** Cutting a string at any position within it loses nothing. *)
Lemma substring_cut (n : nat) (s : string) :
  (n <= String.length s)%nat ->
  substring 0 n s +:+ substring n (String.length s - n) s = s.
Proof.
  revert s; induction n as [|n IH]; intros s Hn.
  - rewrite substring_none, Nat.sub_0_r, substring_all. reflexivity.
  - destruct s as [|c s]; simpl in *; [lia|].
    rewrite append_cons. f_equal. apply IH. lia.
Qed.

(** Dropping a prefix that was just prepended. *)
Lemma substring_append_drop (p s : string) :
  substring (String.length p) (String.length (p +:+ s) - String.length p)
    (p +:+ s) = s.
Proof.
  induction p as [|c p IH].
  - rewrite append_nil_l. simpl. rewrite Nat.sub_0_r. apply substring_all.
  - rewrite append_cons. simpl. exact IH.
Qed.

Lemma prefix_append (p s : string) :
  String.prefix p s = true -> exists rest, s = p +:+ rest.
Proof.
  revert s; induction p as [|c p IH]; intros s H.
  - exists s. reflexivity.
  - destruct s as [|d s]; simpl in H; [discriminate|].
    destruct (ascii_dec c d) as [->|]; [|discriminate].
    destruct (IH s H) as [rest ->]. exists rest. reflexivity.
Qed.

Lemma prefix_append_true (p rest : string) : String.prefix p (p +:+ rest) = true.
Proof.
  induction p as [|c p IH].
  - destruct rest; reflexivity.
  - rewrite append_cons. simpl.
    destruct (ascii_dec c c); [exact IH | congruence].
Qed.

(** The equation of [index] on a non-empty string. *)
Lemma index_cons (substr : string) (c : ascii) (s : string) :
  index 0 substr (String c s) =
  if String.prefix substr (String c s) then Some 0%nat
  else match index 0 substr s with Some n => Some (S n) | None => None end.
Proof. reflexivity. Qed.

(** [Index] answers 0 exactly on the strings that start with [substr]. *)
Lemma Index_zero (s substr : string) :
  Index s substr = 0%Z <-> exists rest, s = substr +:+ rest.
Proof.
  unfold Index. split.
  - destruct (index 0 substr s) as [n|] eqn:E; [|discriminate].
    intros Hn. assert (n = 0%nat) as -> by lia.
    destruct s as [|c s].
    + destruct substr; simpl in E; [|discriminate]. exists EmptyString. reflexivity.
    + rewrite index_cons in E.
      destruct (String.prefix substr (String c s)) eqn:P.
      * now apply prefix_append.
      * destruct (index 0 substr s); discriminate.
  - intros [rest ->].
    destruct (substr +:+ rest) as [|c s] eqn:E.
    + destruct substr; [reflexivity | discriminate].
    + rewrite index_cons, <- E, prefix_append_true. reflexivity.
Qed.

(** An index that [Index] returns lies within the string. *)
Lemma index_bound (substr s : string) (n : nat) :
  index 0 substr s = Some n -> (n <= String.length s)%nat.
Proof.
  revert n; induction s as [|c s IH]; intros n H.
  - destruct substr; simpl in H; [injection H as <-; lia | discriminate].
  - rewrite index_cons in H. destruct (String.prefix substr (String c s)).
    + injection H as <-. lia.
    + destruct (index 0 substr s) as [k|]; [|discriminate].
      injection H as <-. specialize (IH k eq_refl). simpl. lia.
Qed.

(** The string starts with [substr] from the index that [Index] found. *)
Lemma index_prefix (substr s : string) (n : nat) :
  index 0 substr s = Some n ->
  String.prefix substr (substring n (String.length s - n) s) = true.
Proof.
  revert n; induction s as [|c s IH]; intros n H.
  - destruct substr; simpl in H; [injection H as <-; reflexivity | discriminate].
  - rewrite index_cons in H.
    destruct (String.prefix substr (String c s)) eqn:P.
    + injection H as <-. rewrite Nat.sub_0_r, substring_all. exact P.
    + destruct (index 0 substr s) as [k|]; [|discriminate].
      injection H as <-. simpl. apply IH. reflexivity.
Qed.

(** A one-character string is a prefix of the strings that start with
    that character. *)
Lemma prefix_char (c d : ascii) (s : string) :
  String.prefix (String c EmptyString) (String d s) =
  if ascii_dec c d then true else false.
Proof. simpl. destruct (ascii_dec c d); [destruct s|]; reflexivity. Qed.

(** The character does not occur before the index that [Index] found. *)
Lemma index_first (c : ascii) (s : string) (n : nat) :
  index 0 (String c EmptyString) s = Some n ->
  index 0 (String c EmptyString) (substring 0 n s) = None.
Proof.
  revert n; induction s as [|d s IH]; intros n H.
  - discriminate.
  - rewrite index_cons, prefix_char in H.
    destruct (ascii_dec c d) as [->|Hne].
    + injection H as <-. reflexivity.
    + destruct (index 0 (String c EmptyString) s) as [k|] eqn:E; [|discriminate].
      injection H as <-.
      change (substring 0 (S k) (String d s)) with (String d (substring 0 k s)).
      rewrite index_cons, prefix_char.
      destruct (ascii_dec c d); [contradiction|].
      rewrite (IH k eq_refl). reflexivity.
Qed.

(** ** The URL splitter *)

(** What [splitImagesUrl] answers on a path with the prefix: the remainder
    is cut at its first slash. *)
Lemma splitImagesUrl_prefixed (rest : string) :
  splitImagesUrl ("/images/" +:+ rest) =
  if (len rest =? 0)%Z then (rest, EmptyString, Some InvalidURL)
  else match index 0 "/" rest with
       | Some n => (substring 0 n rest,
                    substring n (String.length rest - n) rest, None)
       | None => (rest, EmptyString, None)
       end.
Proof.
  unfold splitImagesUrl.
  assert (Index ("/images/" +:+ rest) "/images/" = 0%Z) as ->
    by (apply Index_zero; eauto).
  change (negb (0 =? 0)%Z) with false. cbv iota.
  assert (slice_from ("/images/" +:+ rest) 8 = rest) as ->
    by apply (substring_append_drop "/images/" rest).
  cbv zeta. destruct (len rest =? 0)%Z; [reflexivity|].
  unfold Index, slice, slice_from.
  destruct (index 0 "/" rest) as [n|]; [|reflexivity].
  assert ((Z.of_nat n =? -1)%Z = false) as -> by (apply Z.eqb_neq; lia).
  change (negb false) with true. cbv iota.
  rewrite Nat2Z.id. change (Z.to_nat 0) with 0%nat.
  rewrite Nat.sub_0_r. reflexivity.
Qed.

(** What it answers on every other path. *)
Lemma splitImagesUrl_unprefixed (url : string) :
  (~ exists rest, url = "/images/" +:+ rest) ->
  splitImagesUrl url = (EmptyString, EmptyString, Some InvalidURL).
Proof.
  intros H. unfold splitImagesUrl.
  destruct (Index url "/images/" =? 0)%Z eqn:E; [|reflexivity].
  exfalso. apply H, Index_zero, Z.eqb_eq, E.
Qed.

(** The path is either prefixed or not. *)
Lemma prefixed_dec (url : string) :
  (exists rest, url = "/images/" +:+ rest) \/
  (~ exists rest, url = "/images/" +:+ rest).
Proof.
  destruct (Index url "/images/" =? 0)%Z eqn:E.
  - left. apply Index_zero, Z.eqb_eq, E.
  - right. intros H. apply Index_zero in H. lia.
Qed.

(** X4.  A failed parse returns the one error [Invalid url], and empty
    strings with it: no part of the path leaks into the results. *)
Lemma splitImagesUrl_error (url uuid file : string) (e : error) :
  splitImagesUrl url = (uuid, file, Some e) ->
  e = InvalidURL /\ uuid = EmptyString /\ file = EmptyString.
Proof.
  destruct (prefixed_dec url) as [[rest ->]|H].
  - rewrite splitImagesUrl_prefixed.
    destruct (len rest =? 0)%Z eqn:E.
    + intros [= <- <- <-]. unfold len in E. destruct rest; [auto | simpl in E; lia].
    + destruct (index 0 "/" rest); discriminate.
  - rewrite (splitImagesUrl_unprefixed url H). intros [= <- <- <-]. auto.
Qed.

(** X3.  The slices that [splitImagesUrl] takes are within bounds, so that
    none of them panics: [url[8:]] once the path starts with [/images/],
    and [uuid[index:]] and [uuid[0:index]] once a slash was found. *)
Lemma splitImagesUrl_in_bounds (url : string) :
  Index url "/images/" = 0%Z ->
  (0 <= 8 <= len url)%Z /\
  let uuid := slice_from url 8 in
  let index := Index uuid "/" in
  (index <> -1 -> 0 <= index <= len uuid)%Z.
Proof.
  intros H. apply Index_zero in H as [rest ->]. split.
  - unfold len. rewrite length_append. simpl. lia.
  - cbv zeta. unfold Index, len.
    destruct (index 0 "/" (slice_from ("/images/" +:+ rest) 8)) as [n|] eqn:E; [|lia].
    intros _. apply index_bound in E. lia.
Qed.

(** A successful parse, taken apart. *)
Lemma splitImagesUrl_success (url uuid file : string) :
  splitImagesUrl url = (uuid, file, None) ->
  url = "/images/" +:+ uuid +:+ file /\
  uuid +:+ file <> EmptyString /\
  Index uuid "/" = (-1)%Z /\
  (file = EmptyString \/ exists tag, file = "/" +:+ tag).
Proof.
  destruct (prefixed_dec url) as [[rest ->]|H].
  2: { rewrite (splitImagesUrl_unprefixed url H). discriminate. }
  rewrite splitImagesUrl_prefixed.
  destruct (len rest =? 0)%Z eqn:L; [discriminate|].
  assert (rest <> EmptyString) as Hrest by (intros ->; discriminate).
  destruct (index 0 "/" rest) as [n|] eqn:E.
  - intros [= <- <-].
    pose proof (substring_cut n rest (index_bound _ _ _ E)) as Hcut.
    rewrite Hcut. repeat split; [assumption| |].
    + unfold Index. rewrite (index_first _ _ _ E). reflexivity.
    + right. apply prefix_append, index_prefix, E.
  - intros [= <- <-]. rewrite append_nil_r. repeat split; [assumption| |].
    + unfold Index. rewrite E. reflexivity.
    + left. reflexivity.
Qed.

(** X2.  The converse of the round trip: a path assembled from the prefix,
    a uuid without a slash and a tag that is empty or starts with a slash,
    the two not both empty, is split into exactly that uuid and that
    tag. *)
Lemma splitImagesUrl_wellformed (uuid tag : string) :
  Index uuid "/" = (-1)%Z ->
  tag = EmptyString \/ (exists t, tag = "/" +:+ t) ->
  uuid +:+ tag <> EmptyString ->
  splitImagesUrl ("/images/" +:+ uuid +:+ tag) = (uuid, tag, None).
Proof.
  intros Hno Htag Hne.
  destruct (splitImagesUrl ("/images/" +:+ uuid +:+ tag)) as [[u f] e] eqn:S.
  rewrite splitImagesUrl_prefixed in S.
  destruct (len (uuid +:+ tag) =? 0)%Z eqn:L.
  { exfalso. apply Hne. unfold len in L. destruct (uuid +:+ tag); [reflexivity | simpl in L; lia]. }
  assert (forall (a : string) (n : nat),
            index 0 "/" a = None ->
            index 0 "/" (a +:+ tag) = Some n ->
            substring 0 n (a +:+ tag) = a /\
            substring n (String.length (a +:+ tag) - n) (a +:+ tag) = tag) as Hcut.
  { induction a as [|c a IH]; intros n Ha Hn.
    - rewrite append_nil_l in *. destruct Htag as [->|[t ->]]; [discriminate|].
      rewrite append_cons, index_cons, prefix_char in Hn.
      destruct (ascii_dec "/" "/"); [|congruence]. injection Hn as <-.
      split; [reflexivity|]. rewrite Nat.sub_0_r. apply substring_all.
    - rewrite index_cons, prefix_char in Ha.
      rewrite append_cons, index_cons, prefix_char in Hn.
      destruct (ascii_dec "/" c); [discriminate|].
      destruct (index 0 "/" a) eqn:Ea; [discriminate|].
      destruct (index 0 "/" (a +:+ tag)) as [k|] eqn:Ek; [|discriminate].
      injection Hn as <-. destruct (IH k eq_refl eq_refl) as [H1 H2].
      rewrite append_cons. simpl. rewrite H1, H2. auto. }
  assert (index 0 "/" uuid = None) as Hu.
  { unfold Index in Hno. destruct (index 0 "/" uuid); [lia | reflexivity]. }
  destruct (index 0 "/" (uuid +:+ tag)) as [n|] eqn:E.
  - destruct (Hcut uuid n Hu E) as [H1 H2]. rewrite H1, H2 in S. congruence.
  - destruct Htag as [->|[t ->]].
    + rewrite append_nil_r in S. congruence.
    + exfalso. clear -E. induction uuid as [|c u IH].
      * rewrite append_nil_l, append_cons, index_cons, prefix_char in E.
        destruct (ascii_dec "/" "/"); [discriminate | congruence].
      * rewrite append_cons, index_cons in E.
        destruct (String.prefix "/" (String c (u +:+ "/" +:+ t))); [discriminate|].
        destruct (index 0 "/" (u +:+ "/" +:+ t)); [discriminate|]. now apply IH.
Qed.

(** C6.  Parsing round-trips: when [splitImagesUrl] succeeds on a path
    [/images/] followed by some remainder, the uuid and the subresource tag
    it returns, concatenated, are exactly that remainder. *)
Theorem splitImagesUrl_roundtrip (rest uuid file : string) :
  splitImagesUrl ("/images/" +:+ rest) = (uuid, file, None) ->
  uuid +:+ file = rest.
Proof.
  rewrite splitImagesUrl_prefixed.
  destruct (len rest =? 0)%Z; [discriminate|].
  destruct (index 0 "/" rest) as [n|] eqn:E; intros [= <- <-].
  - apply substring_cut, (index_bound _ _ _ E).
  - apply append_nil_r.
Qed.

Lemma splitImagesUrl_roundtrip_witness :
  splitImagesUrl ("/images/" +:+ "0a1b/file") = ("0a1b", "/file", None) /\
  "0a1b" +:+ "/file" = "0a1b/file".
Proof.
  split; [reflexivity|].
  apply (splitImagesUrl_roundtrip "0a1b/file" "0a1b" "/file"). reflexivity.
Defined.

(** C7, as the code has it.  Whenever [splitImagesUrl] succeeds, the path
    is [/images/] followed by the returned uuid and subresource, which are
    not both empty; the uuid holds no slash, and the subresource is empty
    or starts with a slash, whatever follows it; the uuid is not empty
    unless the subresource starts right after the prefix.  Every path that
    does not start with [/images/], and the path [/images/] itself, fails
    with the error [Invalid url]. *)
Theorem splitImagesUrl_invariant :
  (forall url uuid file : string,
     splitImagesUrl url = (uuid, file, None) ->
     url = "/images/" +:+ uuid +:+ file /\
     uuid +:+ file <> EmptyString /\
     Index uuid "/" = (-1)%Z /\
     (file = EmptyString \/ exists tag, file = "/" +:+ tag) /\
     (uuid = EmptyString -> exists tag, url = "/images//" +:+ tag)) /\
  (forall url : string,
     (~ exists rest, url = "/images/" +:+ rest) ->
     splitImagesUrl url = (EmptyString, EmptyString, Some InvalidURL)) /\
  splitImagesUrl "/images/" = (EmptyString, EmptyString, Some InvalidURL).
Proof.
  split; [|split; [exact splitImagesUrl_unprefixed | reflexivity]].
  intros url uuid file H.
  destruct (splitImagesUrl_success url uuid file H) as (Hurl & Hne & Hno & Htag).
  repeat split; try assumption.
  intros ->. destruct Htag as [->|[tag ->]]; [now elim Hne|].
  exists tag. exact Hurl.
Qed.

Lemma splitImagesUrl_invariant_witness :
  "0a1b" +:+ "/icon" <> EmptyString /\
  Index "0a1b" "/" = (-1)%Z /\
  splitImagesUrl "images/0a1b" = (EmptyString, EmptyString, Some InvalidURL).
Proof.
  destruct splitImagesUrl_invariant as (Hok & Herr & _).
  destruct (Hok "/images/0a1b/icon" "0a1b" "/icon" eq_refl) as (_ & H1 & H2 & _).
  split; [exact H1 | split; [exact H2 |]].
  apply Herr. intros [rest H]. discriminate H.
Defined.

(** C7 as the specification words it does not hold: a successful parse may
    return a subresource that is none of the enumerated literals, and it
    may return an empty uuid. *)
Lemma splitImagesUrl_invariant_counterexample :
  (splitImagesUrl "/images/0a1b/bogus" = ("0a1b", "/bogus", None) /\
   "/bogus" ∉ subresource_literals) /\
  splitImagesUrl "/images//file" = (EmptyString, "/file", None).
Proof.
  split; [split; [reflexivity|] | reflexivity].
  unfold subresource_literals. rewrite !not_elem_of_cons.
  repeat split; first [discriminate | apply not_elem_of_nil].
Qed.

(** ** The loop over the user database *)

(** Case analysis on a test between strings. *)
Ltac string_case a b :=
  destruct (String.eqb_spec a b) as [->|?].

Ltac string_test a b :=
  destruct (String.eqb_spec a b) as [?|?].

Ltac string_cases :=
  repeat match goal with
         | |- context [String.eqb ?a ?b] => string_case a b; simpl
         end.

Section Authentication.

Variable errorcodes : Errorcodes.

(** What the loop sends when it returns. *)
Let unauthorized (username : string) : trace :=
  LogPrintf ("Invalid username password combo for " +:+ username) ::
  sendResponse (UnauthorizedError errorcodes)
    (error_content "UnauthorizedError" "Invalid username/password combination").

(** The loop returns only with that response. *)
Lemma userdb_loop_returned (username password : string)
    (entries : list UserEntry) (found : bool) (sent : trace) :
  userdb_loop errorcodes username password entries found = Returned sent ->
  sent = unauthorized username.
Proof.
  revert found; induction entries as [|entry entries IH]; intros found; simpl.
  - discriminate.
  - string_case username (Name entry); simpl; [|apply IH].
    string_case password (Password entry); simpl; [apply IH|].
    now intros [= <-].
Qed.

(** The loop visits every entry: it runs off the end exactly when every
    entry named [username] holds [password], later duplicates included,
    and [found] then tells whether there was such an entry. *)
Lemma userdb_loop_finished (username password : string)
    (entries : list UserEntry) (found result : bool) :
  userdb_loop errorcodes username password entries found = Finished result <->
  (forall entry, entry ∈ entries -> Name entry = username ->
                 Password entry = password) /\
  result = found || existsb (fun entry => (username =? Name entry)%string) entries.
Proof.
  revert found; induction entries as [|entry entries IH]; intros found; simpl.
  - rewrite orb_false_r. split.
    + intros [= <-]. split; [|reflexivity]. intros e He. inversion He.
    + intros [_ ->]. reflexivity.
  - string_case username (Name entry); simpl.
    + string_case password (Password entry); simpl.
      * rewrite IH, orb_true_r. split; intros [Hall ->]; split; try reflexivity.
        -- intros e [->|He]%elem_of_cons; [reflexivity | now apply Hall].
        -- intros e He. apply Hall. now right.
      * split; [discriminate|]. intros [Hall _]. exfalso.
        apply n. symmetry. apply (Hall entry); [now left | reflexivity].
    + rewrite IH. split; intros [Hall ->]; split; try reflexivity.
      * intros e [->|He]%elem_of_cons; [congruence | now apply Hall].
      * intros e He. apply Hall. now right.
Qed.

(** X5.  The credentials that the loop accepts: it runs to its end with
    [found] set exactly when some entry has the name and every entry with
    the name has the password. *)
Lemma userdb_loop_accepts (username password : string) (entries : list UserEntry) :
  userdb_loop errorcodes username password entries false = Finished true <->
  (exists entry, entry ∈ entries /\ Name entry = username) /\
  (forall entry, entry ∈ entries -> Name entry = username ->
                 Password entry = password).
Proof.
  rewrite userdb_loop_finished. simpl. split.
  - intros [Hall Hex]. split; [|exact Hall].
    symmetry in Hex. apply existsb_exists in Hex as (e & He & Hn).
    exists e. split; [now apply list_elem_of_In|].
    symmetry. now apply String.eqb_eq.
  - intros [(e & He & Hn) Hall]. split; [exact Hall|].
    symmetry. apply existsb_exists. exists e. split; [now apply list_elem_of_In|].
    now apply String.eqb_eq.
Qed.

End Authentication.

(** ** Answers *)




(** A successful parse is never of the path [/images]. *)
Lemma splitImagesUrl_not_collection (url uuid file : string) :
  splitImagesUrl url = (uuid, file, None) -> url <> "/images".
Proof. intros H ->. discriminate H. Qed.

Lemma length_zero (s : string) : (len s =? 0)%Z = true <-> s = EmptyString.
Proof.
  unfold len. destruct s; simpl; split; try reflexivity; discriminate.
Qed.

(** ** The handlers of the four methods *)

Section Routing.

Variable configuration : Configuration.
Variable errorcodes : Errorcodes.
Variable os_Stat : string -> option error.

(** The action switch does nothing at all on the four names whose case is
    empty. *)
Lemma switch_action_empty_case (action0 : string) (params : Values) (path : string) :
  action0 ∈ empty_cases -> switch_action errorcodes action0 params path = [].
Proof.
  unfold empty_cases. rewrite !elem_of_cons, elem_of_nil.
  intros [->|[->|[->|[->|[]]]]]; reflexivity.
Qed.

(** On [channel-add] it answers that the server version is insufficient. *)
Lemma switch_action_channel_add (params : Values) (path : string) :
  switch_action errorcodes "channel-add" params path =
  sendResponse (InsufficientServerVersion errorcodes)
    (error_content "InsufficientServerVersion"
       ("action=" +:+ dquote +:+ "channel-add" +:+ dquote +:+ " is not implemented")).
Proof. reflexivity. Qed.

(** On a name outside the table it answers with the default case. *)
Lemma switch_action_default (action0 : string) (params : Values) (path : string) :
  action0 ∉ dispatch_table ->
  switch_action errorcodes action0 params path =
  sendResponse (InvalidParameter errorcodes)
    (error_content "InvalidParameter"
       ("Invalid action " +:+ dquote +:+ action0 +:+ dquote)).
Proof.
  unfold dispatch_table. rewrite !not_elem_of_cons.
  intros (?&?&?&?&?&?&?&?&?&_). unfold switch_action.
  repeat match goal with
         | H : action0 <> ?s |- _ => apply String.eqb_neq in H; rewrite H; clear H
         end.
  reflexivity.
Qed.


Lemma doHandleGetImages_answers (r : Request) (params : Values) :
  answers_once (doHandleGetImages configuration errorcodes os_Stat r params).
Proof.
  unfold doHandleGetImages.
  string_test (Path r) "/images"; [constructor|].
  destruct (splitImagesUrl (Path r)) as [[uuid file] [e|]]; [constructor|].
  destruct (os_Stat _); [|constructor].
  destruct (len file =? 0)%Z; [constructor|].
  string_cases; constructor.
Qed.

Lemma doHandleDeleteImages_answers (r : Request) (params : Values) :
  answers_once (doHandleDeleteImages configuration errorcodes r params).
Proof.
  unfold doHandleDeleteImages.
  destruct (splitImagesUrl (Path r)) as [[uuid file] [e|]]; [constructor|].
  destruct (len file >? 0)%Z; string_cases; constructor.
Qed.

Lemma doHandlePutImages_answers (r : Request) (params : Values) :
  answers_once (doHandlePutImages configuration errorcodes r params).
Proof.
  unfold doHandlePutImages.
  destruct (splitImagesUrl (Path r)) as [[uuid file] [e|]];
    string_cases; constructor.
Qed.


End Routing.

Section GetAndPut.

Variable configuration : Configuration.
Variable errorcodes : Errorcodes.
Variable os_Stat : string -> option error.

(** An error response delegates to no operation handler. *)
Lemma sendResponse_not_delegates (code : Z) (content : option Content) :
  ~ delegates (sendResponse code content).
Proof.
  intros [op H]. unfold sendResponse in H. destruct content;
    repeat (apply elem_of_cons in H as [H|H]; [discriminate H|]);
    now apply elem_of_nil in H.
Qed.

(** C4.  A GET whose path parses is answered [ResourceNotFound] when the
    path [{datadir}/{uuid}] exists, that is when [os.Stat] succeeds on it;
    only when [os.Stat] fails is the request handed to the manifest, icon
    or file operation that the subresource tag selects (any other tag
    being answered [ResourceNotFound] too). *)
Theorem doHandleGetImages_inverted_check (r : Request) (params : Values)
    (uuid file : string) :
  splitImagesUrl (Path r) = (uuid, file, None) ->
  let filename := Datadir configuration +:+ "/" +:+ uuid in
  let result := doHandleGetImages configuration errorcodes os_Stat r params in
  (os_Stat filename = None ->
     result = sendResponse (ResourceNotFound errorcodes)
                (error_content "ResourceNotFound"
                   ("Failed to locate " +:+ filename +:+ ": <nil>"))) /\
  (forall e, os_Stat filename = Some e ->
     (file = EmptyString -> result = [Call (GetImage params filename)]) /\
     (file = "/icon" -> result = [Call (GetImageIcon params filename)]) /\
     (file = "/file" -> result = [Call (GetImageFile params filename)]) /\
     (file ∉ [EmptyString; "/icon"; "/file"] ->
        result = sendResponse (ResourceNotFound errorcodes)
                   (error_content "ResourceNotFound"
                      "Requested resource does not exist"))) /\
  (delegates result -> os_Stat filename <> None).
Proof.
  intros Hsplit filename result.
  pose proof (splitImagesUrl_not_collection _ _ _ Hsplit) as Hpath.
  apply String.eqb_neq in Hpath.
  assert (result =
          match os_Stat filename with
          | None =>
              sendResponse (ResourceNotFound errorcodes)
                (error_content "ResourceNotFound"
                   ("Failed to locate " +:+ filename +:+ ": <nil>"))
          | Some _ =>
              if (len file =? 0)%Z then [Call (GetImage params filename)]
              else if (file =? "/icon")%string then
                [Call (GetImageIcon params filename)]
              else if (file =? "/file")%string then
                [Call (GetImageFile params filename)]
              else
                sendResponse (ResourceNotFound errorcodes)
                  (error_content "ResourceNotFound"
                     "Requested resource does not exist")
          end) as Hresult.
  { unfold result, doHandleGetImages. rewrite Hpath, Hsplit. reflexivity. }
  rewrite Hresult. clear Hresult result.
  split; [|split].
  - intros ->. reflexivity.
  - intros e ->. repeat split.
    + intros ->. reflexivity.
    + intros ->. reflexivity.
    + intros ->. reflexivity.
    + rewrite !not_elem_of_cons. intros (H0 & H1 & H2 & _).
      destruct (len file =? 0)%Z eqn:L; [now apply length_zero in L|].
      apply String.eqb_neq in H1, H2. rewrite H1, H2. reflexivity.
  - destruct (os_Stat filename); [discriminate|].
    intros H. now apply sendResponse_not_delegates in H.
Qed.

(** C9.  [doHandlePutImages], which serves the authenticated PUT requests,
    answers [InvalidParameter] unless the path parses and the subresource
    is exactly [/file]; then it calls the file-add operation on
    [{datadir}/{uuid}]. *)
Theorem doHandlePutImages_file_only (r : Request) (params : Values) :
  (forall uuid,
     splitImagesUrl (Path r) = (uuid, "/file", None) ->
     doHandlePutImages configuration errorcodes r params =
     [Call (AddImageFile params (Datadir configuration +:+ "/" +:+ uuid))]) /\
  ((forall uuid, splitImagesUrl (Path r) <> (uuid, "/file", None)) ->
     doHandlePutImages configuration errorcodes r params =
     sendResponse (InvalidParameter errorcodes)
       (error_content "InvalidParameter" "Failed to decode URL")).
Proof.
  unfold doHandlePutImages. split.
  - intros uuid ->. reflexivity.
  - intros Hno. destruct (splitImagesUrl (Path r)) as [[uuid file] [e|]]; simpl.
    + reflexivity.
    + string_case file "/file"; simpl; [|reflexivity].
      now elim (Hno uuid).
Qed.

End GetAndPut.

Lemma doHandleGetImages_inverted_check_witness :
  doHandleGetImages sample_configuration sample_errorcodes sample_Stat
    {| Method := "GET"; Path := "/images/u/icon"; RawQuery := EmptyString;
       BasicAuth := None |} ∅ =
  sendResponse 404
    (error_content "ResourceNotFound" "Failed to locate /data/u: <nil>") /\
  doHandleGetImages sample_configuration sample_errorcodes sample_Stat
    {| Method := "GET"; Path := "/images/v/icon"; RawQuery := EmptyString;
       BasicAuth := None |} ∅ =
  [Call (GetImageIcon ∅ "/data/v")].
Proof.
  split.
  - apply (doHandleGetImages_inverted_check sample_configuration
             sample_errorcodes sample_Stat
             {| Method := "GET"; Path := "/images/u/icon";
                RawQuery := EmptyString; BasicAuth := None |} ∅ "u" "/icon");
      reflexivity.
  - eapply (doHandleGetImages_inverted_check sample_configuration
              sample_errorcodes sample_Stat
              {| Method := "GET"; Path := "/images/v/icon";
                 RawQuery := EmptyString; BasicAuth := None |} ∅ "v" "/icon");
      reflexivity.
Defined.

Lemma doHandlePutImages_file_only_witness :
  doHandlePutImages sample_configuration sample_errorcodes
    {| Method := "PUT"; Path := "/images/u/file"; RawQuery := EmptyString;
       BasicAuth := Some ("b", "3") |} ∅ =
  [Call (AddImageFile ∅ "/data/u")] /\
  doHandlePutImages sample_configuration sample_errorcodes
    {| Method := "PUT"; Path := "/images/u/icon"; RawQuery := EmptyString;
       BasicAuth := Some ("b", "3") |} ∅ =
  sendResponse 422 (error_content "InvalidParameter" "Failed to decode URL").
Proof.
  split.
  - apply (doHandlePutImages_file_only sample_configuration sample_errorcodes
             {| Method := "PUT"; Path := "/images/u/file";
                RawQuery := EmptyString; BasicAuth := Some ("b", "3") |} ∅).
    reflexivity.
  - apply (doHandlePutImages_file_only sample_configuration sample_errorcodes
             {| Method := "PUT"; Path := "/images/u/icon";
                RawQuery := EmptyString; BasicAuth := Some ("b", "3") |} ∅).
    intros uuid H. discriminate H.
Defined.

(** ** The entry point *)

Section Dispatch.

Variable configuration : Configuration.
Variable errorcodes : Errorcodes.
Variable os_Stat : string -> option error.
Variable url_ParseQuery : string -> Values * option error.

Local Abbreviation doHandleImages' :=
  (doHandleImages configuration errorcodes os_Stat url_ParseQuery).
Local Abbreviation dispatch' :=
  (dispatch configuration errorcodes os_Stat url_ParseQuery).
Local Abbreviation authenticates' := (authenticates configuration errorcodes).

(** A request that gets past the credentials check is dispatched. *)
Lemma doHandleImages_dispatch (r : Request) (authenticated : bool) :
  authenticates' r authenticated ->
  doHandleImages' r = dispatch' r authenticated.
Proof.
  unfold authenticates, doHandleImages.
  destruct (BasicAuth r) as [[username password]|].
  - intros [-> ->]. reflexivity.
  - intros ->. reflexivity.
Qed.

(** A query that does not parse is answered [InternalError], whatever the
    method and the credentials. *)
Lemma dispatch_bad_query (r : Request) (authenticated : bool) (e : error) :
  (url_ParseQuery (RawQuery r)).2 = Some e ->
  dispatch' r authenticated =
  sendResponse (InternalError errorcodes)
    (error_content "InternalError" "Failed to parse query").
Proof.
  unfold dispatch. destruct (url_ParseQuery (RawQuery r)) as [parameters err].
  simpl. intros ->. reflexivity.
Qed.

(** Where the dispatcher sends a request whose query parses. *)
Lemma dispatch_GET (r : Request) (authenticated : bool) (params : Values) :
  url_ParseQuery (RawQuery r) = (params, None) ->
  Method r = EmptyString \/ Method r = "GET" ->
  dispatch' r authenticated =
  doHandleGetImages configuration errorcodes os_Stat r params.
Proof.
  unfold dispatch. intros -> [->| ->]; reflexivity.
Qed.

Lemma dispatch_DELETE (r : Request) (params : Values) :
  url_ParseQuery (RawQuery r) = (params, None) ->
  Method r = "DELETE" ->
  dispatch' r true = doHandleDeleteImages configuration errorcodes r params.
Proof. unfold dispatch. intros -> ->. reflexivity. Qed.

Lemma dispatch_POST (r : Request) (params : Values) :
  url_ParseQuery (RawQuery r) = (params, None) ->
  Method r = "POST" ->
  dispatch' r true = doHandlePostImages configuration errorcodes os_Stat r params.
Proof. unfold dispatch. intros -> ->. reflexivity. Qed.

Lemma dispatch_PUT (r : Request) (params : Values) :
  url_ParseQuery (RawQuery r) = (params, None) ->
  Method r = "PUT" ->
  dispatch' r true = doHandlePutImages configuration errorcodes r params.
Proof. unfold dispatch. intros -> ->. reflexivity. Qed.

(** Without [authenticated] the three mutating methods get the bare status. *)
Lemma dispatch_anonymous (r : Request) :
  (url_ParseQuery (RawQuery r)).2 = None ->
  Method r ∈ mutating_methods ->
  dispatch' r false = [WriteHeader (UnauthorizedError errorcodes)].
Proof.
  unfold dispatch, mutating_methods.
  destruct (url_ParseQuery (RawQuery r)) as [parameters err]. simpl.
  intros ->. rewrite !elem_of_cons, elem_of_nil.
  intros [->|[->|[->|[]]]]; reflexivity.
Qed.

(** A method without a branch gets nothing. *)
Lemma dispatch_unrouted (r : Request) (authenticated : bool) :
  (url_ParseQuery (RawQuery r)).2 = None ->
  Method r ∉ routed_methods ->
  dispatch' r authenticated = [].
Proof.
  unfold dispatch, routed_methods.
  destruct (url_ParseQuery (RawQuery r)) as [parameters err]. simpl.
  intros ->. rewrite !not_elem_of_cons. intros (H0 & H1 & H2 & H3 & H4 & _).
  destruct (len (Method r) =? 0)%Z eqn:L; [now apply length_zero in L|].
  apply String.eqb_neq in H1, H2, H3, H4. rewrite H1, H2, H3, H4. reflexivity.
Qed.




(** C5, as the code has it.  A DELETE, POST or PUT request without
    credentials reaches no operation handler; when its query parses it
    gets the bare [UnauthorizedError] status and no body, and when its
    query does not parse it gets the [InternalError] response. *)
Theorem anonymous_mutation_refused (r : Request) :
  BasicAuth r = None ->
  Method r ∈ mutating_methods ->
  ((url_ParseQuery (RawQuery r)).2 = None ->
   doHandleImages' r = [WriteHeader (UnauthorizedError errorcodes)]) /\
  (forall e, (url_ParseQuery (RawQuery r)).2 = Some e ->
   doHandleImages' r =
   sendResponse (InternalError errorcodes)
     (error_content "InternalError" "Failed to parse query")) /\
  ~ delegates (doHandleImages' r).
Proof.
  intros Hanon Hm.
  rewrite (doHandleImages_dispatch r false)
    by (unfold authenticates; now rewrite Hanon).
  split; [|split].
  - intros Hq. now apply dispatch_anonymous.
  - intros e Hq. now apply (dispatch_bad_query r false e).
  - destruct ((url_ParseQuery (RawQuery r)).2) as [e|] eqn:Hq.
    + rewrite (dispatch_bad_query r false e Hq).
      apply sendResponse_not_delegates.
    + rewrite (dispatch_anonymous r Hq Hm). intros [op H].
      apply elem_of_cons in H as [H|H]; [discriminate H | now apply elem_of_nil in H].
Qed.

(** An authenticated POST to an existing [/images/{uuid}] whose first
    action is one of the four names with an empty case gets an empty
    trace: no status, no body, no call. *)
Lemma post_action_empty_case (r : Request) (params : Values) (uuid : string)
    (action0 : string) (rest : list string) :
  Method r = "POST" ->
  authenticates' r true ->
  url_ParseQuery (RawQuery r) = (params, None) ->
  splitImagesUrl (Path r) = (uuid, EmptyString, None) ->
  os_Stat (Datadir configuration +:+ "/" +:+ uuid) = None ->
  params !! "action" = Some (action0 :: rest) ->
  action0 ∈ empty_cases ->
  doHandleImages' r = [].
Proof.
  intros Hm Hauth Hq Hsplit Hstat Hact Hin.
  rewrite (doHandleImages_dispatch r true Hauth), (dispatch_POST r params Hq Hm).
  pose proof (splitImagesUrl_not_collection _ _ _ Hsplit) as Hpath.
  assert (("/images" =? Path r)%string = false) as Hpath'
    by (apply String.eqb_neq; congruence).
  unfold doHandlePostImages. rewrite Hpath', Hsplit, Hstat, Hact. simpl.
  now apply switch_action_empty_case.
Qed.

(** C8.  An authenticated POST to [/images/{uuid}], no subresource, whose
    path [{datadir}/{uuid}] exists: when the [action] parameter is present
    and its first value is outside the dispatch table, whatever values
    follow it, the answer is [InvalidParameter] with a message that holds
    that value; when the parameter is absent, the answer is
    [InvalidParameter] with the message [action parameter not specified]. *)
Theorem post_action_invalid (r : Request) (params : Values) (uuid : string) :
  Method r = "POST" ->
  authenticates' r true ->
  url_ParseQuery (RawQuery r) = (params, None) ->
  splitImagesUrl (Path r) = (uuid, EmptyString, None) ->
  os_Stat (Datadir configuration +:+ "/" +:+ uuid) = None ->
  (forall action0 rest,
     params !! "action" = Some (action0 :: rest) ->
     action0 ∉ dispatch_table ->
     doHandleImages' r =
     sendResponse (InvalidParameter errorcodes)
       (error_content "InvalidParameter"
          ("Invalid action " +:+ dquote +:+ action0 +:+ dquote)) /\
     contains ("Invalid action " +:+ dquote +:+ action0 +:+ dquote) action0) /\
  (params !! "action" = None ->
     doHandleImages' r =
     sendResponse (InvalidParameter errorcodes)
       (error_content "InvalidParameter" "action parameter not specified")).
Proof.
  intros Hm Hauth Hq Hsplit Hstat.
  rewrite (doHandleImages_dispatch r true Hauth), (dispatch_POST r params Hq Hm).
  pose proof (splitImagesUrl_not_collection _ _ _ Hsplit) as Hpath.
  assert (("/images" =? Path r)%string = false) as Hpath'
    by (apply String.eqb_neq; congruence).
  unfold doHandlePostImages. rewrite Hpath', Hsplit, Hstat. simpl.
  split.
  - intros action0 rest -> Hout. split.
    + now apply switch_action_default.
    + exists ("Invalid action " +:+ dquote), dquote. reflexivity.
  - intros ->. reflexivity.
Qed.

(** C10.  A request whose method is not empty and is none of GET, DELETE,
    POST and PUT, once past the credentials check and with a query that
    parses, gets no status, no header and no body: the trace is empty. *)
Theorem unrouted_method_silent (r : Request) (authenticated : bool) :
  authenticates' r authenticated ->
  (url_ParseQuery (RawQuery r)).2 = None ->
  Method r ∉ routed_methods ->
  doHandleImages' r = [].
Proof.
  intros Hauth Hq Hm.
  rewrite (doHandleImages_dispatch r authenticated Hauth).
  now apply dispatch_unrouted.
Qed.

End Dispatch.

(** ** The handlers on the sample deployment *)

(** Membership in a list of string literals. *)
Ltac in_literals := rewrite !elem_of_cons; tauto.
Ltac not_in_literals :=
  rewrite !not_elem_of_cons; repeat split;
  first [discriminate | apply not_elem_of_nil].

(** C1, what the code does.  With the user database [[{a,1}; {a,2}]] the
    credentials [a]/[1] are refused: the loop does not stop at the first
    entry named [a], it goes on to the second one, whose password differs,
    and answers [UnauthorizedError] there. *)
Theorem doHandleImages_duplicate_user (errorcodes : Errorcodes)
    (os_Stat : string -> option error)
    (url_ParseQuery : string -> Values * option error)
    (datadir : string) (port : Z) (method path query : string) :
  doHandleImages
    {| Datadir := datadir; Port := port;
       Userdb := [ {| Name := "a"; Password := "1" |};
                   {| Name := "a"; Password := "2" |} ] |}
    errorcodes os_Stat url_ParseQuery
    {| Method := method; Path := path; RawQuery := query;
       BasicAuth := Some ("a", "1") |} =
  LogPrintf "Invalid username password combo for a" ::
  sendResponse (UnauthorizedError errorcodes)
    (error_content "UnauthorizedError" "Invalid username/password combination").
Proof. reflexivity. Qed.

(** C2, what the code does.  An authenticated POST to an existing
    [/images/u] with [action=export] gets no answer at all, and so do the
    other three actions whose case is empty; of the five names only
    [channel-add] is answered [InsufficientServerVersion]. *)
Theorem post_empty_case_unanswered :
  doHandleImages sample_configuration sample_errorcodes sample_Stat
    sample_ParseQuery
    {| Method := "POST"; Path := "/images/u"; RawQuery := "action=export";
       BasicAuth := Some ("b", "3") |} = [] /\
  Forall
    (fun action0 =>
       doHandlePostImages sample_configuration sample_errorcodes sample_Stat
         {| Method := "POST"; Path := "/images/u";
            RawQuery := "action=" +:+ action0; BasicAuth := Some ("b", "3") |}
         {[ "action" := [action0] ]} = [])
    empty_cases /\
  doHandleImages sample_configuration sample_errorcodes sample_Stat
    sample_ParseQuery
    {| Method := "POST"; Path := "/images/u"; RawQuery := "action=channel-add";
       BasicAuth := Some ("b", "3") |} =
  sendResponse 422
    (error_content "InsufficientServerVersion"
       ("action=" +:+ dquote +:+ "channel-add" +:+ dquote +:+ " is not implemented")).
Proof.
  split; [reflexivity | split; [|reflexivity]].
  repeat constructor.
Qed.



Lemma anonymous_mutation_refused_witness :
  doHandleImages sample_configuration sample_errorcodes sample_Stat
    sample_ParseQuery
    {| Method := "DELETE"; Path := "/images/u"; RawQuery := EmptyString;
       BasicAuth := None |} = [WriteHeader 401] /\
  ~ delegates
      (doHandleImages sample_configuration sample_errorcodes sample_Stat
         sample_ParseQuery
         {| Method := "DELETE"; Path := "/images/u"; RawQuery := EmptyString;
            BasicAuth := None |}).
Proof.
  destruct (anonymous_mutation_refused sample_configuration sample_errorcodes
              sample_Stat sample_ParseQuery
              {| Method := "DELETE"; Path := "/images/u";
                 RawQuery := EmptyString; BasicAuth := None |})
    as (Hbare & _ & Hnone).
  - reflexivity.
  - simpl. unfold mutating_methods. in_literals.
  - split; [apply Hbare; reflexivity | exact Hnone].
Defined.

(** C5 as the specification words it does not hold: an anonymous DELETE
    whose query does not parse gets the [InternalError] response, with its
    body, and not the bare [UnauthorizedError] status. *)
Lemma anonymous_mutation_refused_counterexample :
  doHandleImages sample_configuration sample_errorcodes sample_Stat
    sample_ParseQuery
    {| Method := "DELETE"; Path := "/images/u"; RawQuery := "q=100%";
       BasicAuth := None |} =
  sendResponse 500 (error_content "InternalError" "Failed to parse query") /\
  sendResponse 500 (error_content "InternalError" "Failed to parse query") <>
  [WriteHeader (UnauthorizedError sample_errorcodes)].
Proof. split; [reflexivity | discriminate]. Qed.

Lemma post_action_invalid_witness :
  doHandleImages sample_configuration sample_errorcodes sample_Stat
    sample_ParseQuery
    {| Method := "POST"; Path := "/images/u";
       RawQuery := "action=bogus&action=activate";
       BasicAuth := Some ("b", "3") |} =
  sendResponse 422
    (error_content "InvalidParameter"
       ("Invalid action " +:+ dquote +:+ "bogus" +:+ dquote)) /\
  contains ("Invalid action " +:+ dquote +:+ "bogus" +:+ dquote) "bogus".
Proof.
  apply (proj1
           (post_action_invalid sample_configuration sample_errorcodes
              sample_Stat sample_ParseQuery
              {| Method := "POST"; Path := "/images/u";
                 RawQuery := "action=bogus&action=activate";
                 BasicAuth := Some ("b", "3") |}
              {[ "action" := ["bogus"; "activate"] ]} "u"
              eq_refl (conj eq_refl eq_refl) eq_refl eq_refl eq_refl)
           "bogus" ["activate"]).
  - reflexivity.
  - unfold dispatch_table. not_in_literals.
Defined.

Lemma unrouted_method_silent_witness :
  doHandleImages sample_configuration sample_errorcodes sample_Stat
    sample_ParseQuery
    {| Method := "PATCH"; Path := "/images/u"; RawQuery := EmptyString;
       BasicAuth := Some ("b", "3") |} = [].
Proof.
  apply (unrouted_method_silent sample_configuration sample_errorcodes
           sample_Stat sample_ParseQuery
           {| Method := "PATCH"; Path := "/images/u"; RawQuery := EmptyString;
              BasicAuth := Some ("b", "3") |} true).
  - split; reflexivity.
  - reflexivity.
  - simpl. unfold routed_methods. not_in_literals.
Defined.

(** ** Further properties of the URL splitter *)

(** X1.  [splitImagesUrl] succeeds exactly on the paths made of the prefix
    [/images/] and a remainder that is not empty: nothing else about the
    remainder makes it fail. *)
Theorem splitImagesUrl_succeeds_iff (url : string) :
  (exists uuid file, splitImagesUrl url = (uuid, file, None)) <->
  (exists rest, rest <> EmptyString /\ url = "/images/" +:+ rest).
Proof.
  split.
  - intros (uuid & file & H).
    destruct (splitImagesUrl_success url uuid file H) as (Hurl & Hne & _).
    exists (uuid +:+ file). split; assumption.
  - intros (rest & Hne & ->). rewrite splitImagesUrl_prefixed.
    destruct (len rest =? 0)%Z eqn:L; [now apply length_zero in L|].
    destruct (index 0 "/" rest); eauto.
Qed.

Lemma splitImagesUrl_wellformed_witness :
  splitImagesUrl ("/images/" +:+ "0a1b" +:+ "/icon") = ("0a1b", "/icon", None).
Proof.
  apply (splitImagesUrl_wellformed "0a1b" "/icon").
  - reflexivity.
  - right. exists "icon". reflexivity.
  - discriminate.
Defined.

Lemma splitImagesUrl_in_bounds_witness :
  (0 <= 8 <= len "/images/0a1b/icon")%Z /\
  (Index "0a1b/icon" "/" <> -1 -> 0 <= Index "0a1b/icon" "/" <= len "0a1b/icon")%Z.
Proof.
  apply (splitImagesUrl_in_bounds "/images/0a1b/icon"). reflexivity.
Defined.

Lemma splitImagesUrl_error_witness :
  errors_New "Invalid url" = InvalidURL /\
  EmptyString = EmptyString /\ EmptyString = EmptyString.
Proof.
  apply (splitImagesUrl_error "/images" EmptyString EmptyString
           (errors_New "Invalid url")).
  reflexivity.
Defined.

(** ** Requests that carry credentials *)

Section Credentials.

Variable configuration : Configuration.
Variable errorcodes : Errorcodes.
Variable os_Stat : string -> option error.
Variable url_ParseQuery : string -> Values * option error.

Local Abbreviation doHandleImages' :=
  (doHandleImages configuration errorcodes os_Stat url_ParseQuery).

(** No entry of the database has the name: the loop ends with the flag it
    started with. *)
Lemma userdb_loop_unknown (username password : string)
    (entries : list UserEntry) (found : bool) :
  (forall entry, entry ∈ entries -> Name entry <> username) ->
  userdb_loop errorcodes username password entries found = Finished found.
Proof.
  intros Hno. apply userdb_loop_finished. split.
  - intros entry He Hn. now elim (Hno entry He).
  - assert (existsb (fun entry => (username =? Name entry)%string) entries
            = false) as ->; [|now rewrite orb_false_r].
    apply not_true_is_false. intros (e & He & Hn)%existsb_exists.
    apply String.eqb_eq in Hn. apply (Hno e); [now apply list_elem_of_In | auto].
Qed.

(** X6.  A request whose user name is that of no entry of the user
    database is answered [AccountDoesNotExist], after a log line, whatever
    its password, method, path and query: the query is not parsed and no
    handler runs, not even for a GET. *)
Theorem unknown_account_refused (r : Request) (username password : string) :
  BasicAuth r = Some (username, password) ->
  (forall entry, entry ∈ Userdb configuration -> Name entry <> username) ->
  doHandleImages' r =
  LogPrintf ("User " +:+ username +:+ " does not exists") ::
  sendResponse (AccountDoesNotExist errorcodes)
    (error_content "AccountDoesNotExist"
       ("User " +:+ username +:+ " does not exist")).
Proof.
  intros Hauth Hno. unfold doHandleImages. rewrite Hauth.
  rewrite (userdb_loop_unknown _ _ _ false Hno). reflexivity.
Qed.

(** X7.  A request whose user name is that of an entry with another
    password is answered [UnauthorizedError], after a log line, whatever
    its method, path and query, and whatever the other entries are. *)
Theorem wrong_password_refused (r : Request) (username password : string)
    (entry : UserEntry) :
  BasicAuth r = Some (username, password) ->
  entry ∈ Userdb configuration ->
  Name entry = username ->
  Password entry <> password ->
  doHandleImages' r =
  LogPrintf ("Invalid username password combo for " +:+ username) ::
  sendResponse (UnauthorizedError errorcodes)
    (error_content "UnauthorizedError" "Invalid username/password combination").
Proof.
  intros Hauth He Hn Hp. unfold doHandleImages. rewrite Hauth.
  destruct (userdb_loop _ _ _ _ _) as [sent|found] eqn:L.
  - now apply userdb_loop_returned in L.
  - apply userdb_loop_finished in L as [Hall _].
    now elim Hp; apply Hall.
Qed.

(** The dispatcher does not look at [authenticated] for a GET. *)
Lemma dispatch_GET_any (r : Request) (a b : bool) :
  Method r = EmptyString \/ Method r = "GET" ->
  dispatch configuration errorcodes os_Stat url_ParseQuery r a =
  dispatch configuration errorcodes os_Stat url_ParseQuery r b.
Proof. unfold dispatch. intros [->| ->]; reflexivity. Qed.

(** X8.  Credentials that the database accepts change nothing for a GET
    (or a request with an empty method): it is served exactly as the same
    request without credentials. *)
Theorem get_ignores_credentials (r : Request) (authenticated : bool) :
  Method r = EmptyString \/ Method r = "GET" ->
  authenticates configuration errorcodes r authenticated ->
  doHandleImages' r = doHandleImages' (anonymous r).
Proof.
  intros Hm Hauth.
  rewrite (doHandleImages_dispatch _ _ _ _ r authenticated Hauth).
  rewrite (doHandleImages_dispatch _ _ _ _ (anonymous r) false eq_refl).
  unfold dispatch, anonymous. simpl.
  destruct Hm as [->| ->]; reflexivity.
Qed.

(** X9.  A GET of the collection [/images], anonymous or with accepted
    credentials, whose query parses, is handed to the list operation with
    the data directory, whatever the file system holds. *)
Theorem get_collection_lists (r : Request) (authenticated : bool) :
  Method r = EmptyString \/ Method r = "GET" ->
  Path r = "/images" ->
  authenticates configuration errorcodes r authenticated ->
  (url_ParseQuery (RawQuery r)).2 = None ->
  doHandleImages' r = [Call (ListImages (Datadir configuration))].
Proof.
  intros Hm Hp Hauth Hq.
  rewrite (doHandleImages_dispatch _ _ _ _ r authenticated Hauth).
  unfold dispatch. destruct (url_ParseQuery (RawQuery r)) as [params err].
  simpl in Hq. subst err.
  unfold doHandleGetImages. rewrite Hp.
  destruct Hm as [->| ->]; reflexivity.
Qed.

End Credentials.

Lemma unknown_account_refused_witness :
  doHandleImages sample_configuration sample_errorcodes sample_Stat
    sample_ParseQuery
    {| Method := "GET"; Path := "/images"; RawQuery := EmptyString;
       BasicAuth := Some ("mallory", "1") |} =
  LogPrintf "User mallory does not exists" ::
  sendResponse 422
    (error_content "AccountDoesNotExist" "User mallory does not exist").
Proof.
  apply (unknown_account_refused sample_configuration sample_errorcodes
           sample_Stat sample_ParseQuery
           {| Method := "GET"; Path := "/images"; RawQuery := EmptyString;
              BasicAuth := Some ("mallory", "1") |} "mallory" "1" eq_refl).
  intros entry. unfold sample_configuration. simpl.
  rewrite !elem_of_cons, elem_of_nil.
  intros [->|[->|[->|[]]]]; discriminate.
Defined.

Lemma wrong_password_refused_witness :
  doHandleImages sample_configuration sample_errorcodes sample_Stat
    sample_ParseQuery
    {| Method := "GET"; Path := "/images"; RawQuery := EmptyString;
       BasicAuth := Some ("b", "4") |} =
  LogPrintf "Invalid username password combo for b" ::
  sendResponse 401
    (error_content "UnauthorizedError" "Invalid username/password combination").
Proof.
  apply (wrong_password_refused sample_configuration sample_errorcodes
           sample_Stat sample_ParseQuery
           {| Method := "GET"; Path := "/images"; RawQuery := EmptyString;
              BasicAuth := Some ("b", "4") |} "b" "4"
           {| Name := "b"; Password := "3" |} eq_refl).
  - unfold sample_configuration. simpl. rewrite !elem_of_cons. tauto.
  - reflexivity.
  - discriminate.
Defined.

Lemma get_ignores_credentials_witness :
  doHandleImages sample_configuration sample_errorcodes sample_Stat
    sample_ParseQuery
    {| Method := "GET"; Path := "/images/v/file"; RawQuery := EmptyString;
       BasicAuth := Some ("b", "3") |} =
  doHandleImages sample_configuration sample_errorcodes sample_Stat
    sample_ParseQuery
    {| Method := "GET"; Path := "/images/v/file"; RawQuery := EmptyString;
       BasicAuth := None |}.
Proof.
  apply (get_ignores_credentials sample_configuration sample_errorcodes
           sample_Stat sample_ParseQuery
           {| Method := "GET"; Path := "/images/v/file";
              RawQuery := EmptyString; BasicAuth := Some ("b", "3") |} true).
  - right. reflexivity.
  - split; reflexivity.
Defined.

Lemma get_collection_lists_witness :
  doHandleImages sample_configuration sample_errorcodes sample_Stat
    sample_ParseQuery
    {| Method := "GET"; Path := "/images"; RawQuery := EmptyString;
       BasicAuth := None |} = [Call (ListImages "/data")].
Proof.
  apply (get_collection_lists sample_configuration sample_errorcodes
           sample_Stat sample_ParseQuery
           {| Method := "GET"; Path := "/images"; RawQuery := EmptyString;
              BasicAuth := None |} false).
  - right. reflexivity.
  - reflexivity.
  - reflexivity.
  - reflexivity.
Defined.

(** ** DELETE and POST *)

Section DeleteAndPost.

Variable configuration : Configuration.
Variable errorcodes : Errorcodes.
Variable os_Stat : string -> option error.

(** X10.  [doHandleDeleteImages] routes on the path alone, without looking
    at the file system or at the query: a path that does not parse is
    answered [InvalidParameter]; no subresource deletes the image, [/icon]
    deletes its icon, and any other subresource is answered
    [ResourceNotFound]; the operations get the path [{datadir}/{uuid}]. *)
Theorem doHandleDeleteImages_routes (r : Request) (params : Values) :
  let result := doHandleDeleteImages configuration errorcodes r params in
  (forall uuid file e,
     splitImagesUrl (Path r) = (uuid, file, Some e) ->
     result = sendResponse (InvalidParameter errorcodes)
                (error_content "InvalidParameter" "Failed to decode URL")) /\
  (forall uuid file,
     splitImagesUrl (Path r) = (uuid, file, None) ->
     let path := Datadir configuration +:+ "/" +:+ uuid in
     (file = EmptyString -> result = [Call (DeleteImage params path)]) /\
     (file = "/icon" -> result = [Call (DeleteImageIcon params path)]) /\
     (file <> EmptyString -> file <> "/icon" ->
        result = sendResponse (ResourceNotFound errorcodes)
                   (error_content "ResourceNotFound" "Resource does not exists"))).
Proof.
  intros result. unfold result, doHandleDeleteImages. split.
  - intros uuid file e ->. reflexivity.
  - intros uuid file ->. cbv zeta. repeat split.
    + intros ->. reflexivity.
    + intros ->. reflexivity.
    + intros H0 H1.
      assert ((len file >? 0)%Z = true) as ->.
      { unfold len. destruct file; [contradiction | reflexivity]. }
      apply String.eqb_neq in H1. rewrite H1. reflexivity.
Qed.

(** X11.  A POST to a path that parses but that [os.Stat] does not find
    reaches no operation handler, whatever its subresource and its action:
    it is answered [ResourceNotFound] when the path does not exist and
    [InternalError], with the text of the error, on any other failure. *)
Theorem post_missing_resource (r : Request) (params : Values)
    (uuid file : string) (err : error) :
  splitImagesUrl (Path r) = (uuid, file, None) ->
  os_Stat (Datadir configuration +:+ "/" +:+ uuid) = Some err ->
  doHandlePostImages configuration errorcodes os_Stat r params =
  (if IsNotExist err then
     sendResponse (ResourceNotFound errorcodes)
       (error_content "ResourceNotFound" "Failed to locate resource")
   else
     sendResponse (InternalError errorcodes)
       (error_content "InternalError"
          ("Failed to locate resource " +:+ Error err))) /\
  ~ delegates (doHandlePostImages configuration errorcodes os_Stat r params).
Proof.
  intros Hsplit Hstat.
  pose proof (splitImagesUrl_not_collection _ _ _ Hsplit) as Hpath.
  assert (("/images" =? Path r)%string = false) as Hpath'
    by (apply String.eqb_neq; congruence).
  unfold doHandlePostImages. rewrite Hpath', Hsplit, Hstat.
  split; [reflexivity|].
  destruct (IsNotExist err); apply sendResponse_not_delegates.
Qed.

(** X13.  The POST routes that need no action: the collection [/images]
    creates an image without any look at the file system; on an existing
    [{datadir}/{uuid}], [/icon] adds the icon, [/acl] is answered
    [InsufficientServerVersion], and every other subresource that is not
    empty is answered [ResourceNotFound]; the [action] parameter plays no
    part in any of them. *)
Theorem post_subresources (r : Request) (params : Values) :
  let result := doHandlePostImages configuration errorcodes os_Stat r params in
  (Path r = "/images" ->
     result = [Call (CreateImage params (Datadir configuration))]) /\
  (forall uuid file,
     splitImagesUrl (Path r) = (uuid, file, None) ->
     os_Stat (Datadir configuration +:+ "/" +:+ uuid) = None ->
     (file = "/icon" ->
        result =
        [Call (AddImageIcon params (Datadir configuration +:+ "/" +:+ uuid))]) /\
     (file = "/acl" ->
        result = sendResponse (InsufficientServerVersion errorcodes)
                   (error_content "InsufficientServerVersion"
                      "acl is not implemented")) /\
     (file ∉ [EmptyString; "/icon"; "/acl"] ->
        result = sendResponse (ResourceNotFound errorcodes)
                   (error_content "ResourceNotFound" "Invalid URL specified"))).
Proof.
  intros result. unfold result, doHandlePostImages. split.
  - intros ->. reflexivity.
  - intros uuid file Hsplit Hstat.
    pose proof (splitImagesUrl_not_collection _ _ _ Hsplit) as Hpath.
    assert (("/images" =? Path r)%string = false) as ->
      by (apply String.eqb_neq; congruence).
    rewrite Hsplit, Hstat. repeat split.
    + intros ->. reflexivity.
    + intros ->. reflexivity.
    + rewrite !not_elem_of_cons. intros (H0 & H1 & H2 & _).
      apply String.eqb_neq in H0, H1, H2. rewrite H0, H1, H2. reflexivity.
Qed.

End DeleteAndPost.

Section Actions.

Variable configuration : Configuration.
Variable errorcodes : Errorcodes.
Variable os_Stat : string -> option error.
Variable url_ParseQuery : string -> Values * option error.

Local Abbreviation doHandleImages' :=
  (doHandleImages configuration errorcodes os_Stat url_ParseQuery).

(** X12.  An authenticated POST to an existing [/images/{uuid}] with no
    subresource whose first [action] value is [activate], [update],
    [disable] or [enable] is handed to the operation of that name, with all
    the query parameters and the path [{datadir}/{uuid}], and the server
    itself writes nothing; values of [action] after the first play no
    part. *)
Theorem post_action_implemented (r : Request) (params : Values)
    (uuid action0 : string) (rest : list string) :
  Method r = "POST" ->
  authenticates configuration errorcodes r true ->
  url_ParseQuery (RawQuery r) = (params, None) ->
  splitImagesUrl (Path r) = (uuid, EmptyString, None) ->
  os_Stat (Datadir configuration +:+ "/" +:+ uuid) = None ->
  params !! "action" = Some (action0 :: rest) ->
  let path := Datadir configuration +:+ "/" +:+ uuid in
  (action0 = "activate" -> doHandleImages' r = [Call (ActivateImage params path)]) /\
  (action0 = "update" -> doHandleImages' r = [Call (UpdateImage params path)]) /\
  (action0 = "disable" -> doHandleImages' r = [Call (DisableImage params path)]) /\
  (action0 = "enable" -> doHandleImages' r = [Call (EnableImage params path)]).
Proof.
  intros Hm Hauth Hq Hsplit Hstat Hact path.
  rewrite (doHandleImages_dispatch _ _ _ _ r true Hauth),
    (dispatch_POST _ _ _ _ r params Hq Hm).
  pose proof (splitImagesUrl_not_collection _ _ _ Hsplit) as Hpath.
  assert (("/images" =? Path r)%string = false) as Hpath'
    by (apply String.eqb_neq; congruence).
  unfold doHandlePostImages. rewrite Hpath', Hsplit, Hstat, Hact. simpl.
  repeat split; intros ->; reflexivity.
Qed.

End Actions.

Lemma doHandleDeleteImages_routes_witness :
  doHandleDeleteImages sample_configuration sample_errorcodes
    {| Method := "DELETE"; Path := "/images/u/acl"; RawQuery := EmptyString;
       BasicAuth := Some ("b", "3") |} ∅ =
  sendResponse 404 (error_content "ResourceNotFound" "Resource does not exists") /\
  doHandleDeleteImages sample_configuration sample_errorcodes
    {| Method := "DELETE"; Path := "/images/u"; RawQuery := EmptyString;
       BasicAuth := Some ("b", "3") |} ∅ =
  [Call (DeleteImage ∅ "/data/u")].
Proof.
  split.
  - apply (proj2 (doHandleDeleteImages_routes sample_configuration
                    sample_errorcodes
                    {| Method := "DELETE"; Path := "/images/u/acl";
                       RawQuery := EmptyString; BasicAuth := Some ("b", "3") |}
                    ∅) "u" "/acl" eq_refl); discriminate.
  - apply (proj2 (doHandleDeleteImages_routes sample_configuration
                    sample_errorcodes
                    {| Method := "DELETE"; Path := "/images/u";
                       RawQuery := EmptyString; BasicAuth := Some ("b", "3") |}
                    ∅) "u" EmptyString eq_refl). reflexivity.
Defined.

Lemma post_missing_resource_witness :
  doHandlePostImages sample_configuration sample_errorcodes sample_Stat
    {| Method := "POST"; Path := "/images/v/icon"; RawQuery := EmptyString;
       BasicAuth := Some ("b", "3") |} ∅ =
  sendResponse 404 (error_content "ResourceNotFound" "Failed to locate resource").
Proof.
  apply (post_missing_resource sample_configuration sample_errorcodes
           sample_Stat
           {| Method := "POST"; Path := "/images/v/icon";
              RawQuery := EmptyString; BasicAuth := Some ("b", "3") |}
           ∅ "v" "/icon"
           {| Error := "stat /data/v: no such file or directory";
              IsNotExist := true |});
    reflexivity.
Defined.

Lemma post_subresources_witness :
  doHandlePostImages sample_configuration sample_errorcodes sample_Stat
    {| Method := "POST"; Path := "/images/u/acl"; RawQuery := EmptyString;
       BasicAuth := Some ("b", "3") |} ∅ =
  sendResponse 422
    (error_content "InsufficientServerVersion" "acl is not implemented") /\
  doHandlePostImages sample_configuration sample_errorcodes sample_Stat
    {| Method := "POST"; Path := "/images"; RawQuery := EmptyString;
       BasicAuth := Some ("b", "3") |} ∅ =
  [Call (CreateImage ∅ "/data")].
Proof.
  split.
  - apply (proj2 (post_subresources sample_configuration sample_errorcodes
                    sample_Stat
                    {| Method := "POST"; Path := "/images/u/acl";
                       RawQuery := EmptyString; BasicAuth := Some ("b", "3") |}
                    ∅) "u" "/acl" eq_refl eq_refl). reflexivity.
  - apply (proj1 (post_subresources sample_configuration sample_errorcodes
                    sample_Stat
                    {| Method := "POST"; Path := "/images";
                       RawQuery := EmptyString; BasicAuth := Some ("b", "3") |}
                    ∅)). reflexivity.
Defined.

Lemma post_action_implemented_witness :
  doHandleImages sample_configuration sample_errorcodes sample_Stat
    sample_ParseQuery
    {| Method := "POST"; Path := "/images/u"; RawQuery := "action=activate";
       BasicAuth := Some ("b", "3") |} =
  [Call (ActivateImage {[ "action" := ["activate"] ]} "/data/u")].
Proof.
  apply (post_action_implemented sample_configuration sample_errorcodes
           sample_Stat sample_ParseQuery
           {| Method := "POST"; Path := "/images/u";
              RawQuery := "action=activate"; BasicAuth := Some ("b", "3") |}
           {[ "action" := ["activate"] ]} "u" "activate" []
           eq_refl (conj eq_refl eq_refl) eq_refl eq_refl eq_refl eq_refl).
  reflexivity.
Defined.

(** ** Everything the entry point can do *)

Ltac in_names :=
  unfold error_names, credential_errors;
  repeat first [apply list_elem_of_here | apply list_elem_of_further].

Ltac outcome_step :=
  first [ apply outcome_nothing | apply outcome_panic | apply outcome_call
        | apply outcome_bare | apply outcome_error; in_names ].

Section Outcomes.

Variable configuration : Configuration.
Variable errorcodes : Errorcodes.
Variable os_Stat : string -> option error.
Variable url_ParseQuery : string -> Values * option error.

Local Abbreviation doHandleImages' :=
  (doHandleImages configuration errorcodes os_Stat url_ParseQuery).

Lemma switch_action_outcome (action0 : string) (params : Values) (path : string) :
  outcome errorcodes (switch_action errorcodes action0 params path).
Proof. unfold switch_action. string_cases; outcome_step. Qed.

Lemma doHandleGetImages_outcome (r : Request) (params : Values) :
  outcome errorcodes (doHandleGetImages configuration errorcodes os_Stat r params).
Proof.
  unfold doHandleGetImages.
  string_test (Path r) "/images"; [outcome_step|].
  destruct (splitImagesUrl (Path r)) as [[uuid file] [e|]]; [outcome_step|].
  destruct (os_Stat _); [|outcome_step].
  destruct (len file =? 0)%Z; [outcome_step|].
  string_cases; outcome_step.
Qed.

Lemma doHandleDeleteImages_outcome (r : Request) (params : Values) :
  outcome errorcodes (doHandleDeleteImages configuration errorcodes r params).
Proof.
  unfold doHandleDeleteImages.
  destruct (splitImagesUrl (Path r)) as [[uuid file] [e|]]; [outcome_step|].
  destruct (len file >? 0)%Z; string_cases; outcome_step.
Qed.

Lemma doHandlePutImages_outcome (r : Request) (params : Values) :
  outcome errorcodes (doHandlePutImages configuration errorcodes r params).
Proof.
  unfold doHandlePutImages.
  destruct (splitImagesUrl (Path r)) as [[uuid file] [e|]];
    string_cases; outcome_step.
Qed.

Lemma doHandlePostImages_outcome (r : Request) (params : Values) :
  outcome errorcodes (doHandlePostImages configuration errorcodes os_Stat r params).
Proof.
  unfold doHandlePostImages.
  string_test "/images" (Path r); [outcome_step|].
  destruct (splitImagesUrl (Path r)) as [[uuid file] [e|]]; [outcome_step|].
  destruct (os_Stat _) as [err|]; [destruct (IsNotExist err); outcome_step|].
  string_case file "/icon"; [outcome_step|].
  string_case file "/acl"; [outcome_step|].
  string_case file EmptyString; [|outcome_step].
  destruct (params !! "action") as [[|action0 rest]|]; try outcome_step.
  apply switch_action_outcome.
Qed.

Lemma dispatch_outcome (r : Request) (authenticated : bool) :
  outcome errorcodes
    (dispatch configuration errorcodes os_Stat url_ParseQuery r authenticated).
Proof.
  unfold dispatch.
  destruct (url_ParseQuery (RawQuery r)) as [parameters [e|]]; [outcome_step|].
  destruct (_ || _); [apply doHandleGetImages_outcome|].
  destruct (String.eqb (Method r) "DELETE").
  { destruct authenticated; [apply doHandleDeleteImages_outcome | outcome_step]. }
  destruct (String.eqb (Method r) "POST").
  { destruct authenticated; [apply doHandlePostImages_outcome | outcome_step]. }
  destruct (String.eqb (Method r) "PUT").
  { destruct authenticated; [apply doHandlePutImages_outcome | outcome_step]. }
  outcome_step.
Qed.

(** Every run of [doHandleImages] has one of the six outcomes. *)
Lemma doHandleImages_outcome (r : Request) :
  outcome errorcodes (doHandleImages' r).
Proof.
  unfold doHandleImages.
  destruct (BasicAuth r) as [[username password]|]; [|apply dispatch_outcome].
  destruct (userdb_loop _ _ _ _ _) as [sent|found] eqn:L.
  - apply userdb_loop_returned in L as ->. apply outcome_refused. in_names.
  - destruct found; simpl; [apply dispatch_outcome|].
    apply outcome_refused. in_names.
Qed.

(** Membership in the traces of the outcomes. *)
Lemma elem_of_sendResponse (e : effect) (code : Z) (content : Content) :
  e ∈ sendResponse code (Some content) <->
  e = HeaderSet "Server" "Norbye Public Images Repo" \/
  e = WriteHeader code \/
  e = HeaderSet "Content-Type" "application/json; charset=utf-8" \/
  e = WriteJSON content.
Proof.
  unfold sendResponse. simpl. rewrite !elem_of_cons, elem_of_nil. tauto.
Qed.

(** X15.  Whatever the request, [doHandleImages] answers at most once: it
    never writes two statuses, never calls two operation handlers, and
    never does both. *)
Theorem doHandleImages_at_most_one_answer (r : Request) :
  (answers (doHandleImages' r) <= 1)%nat.
Proof.
  destruct (doHandleImages_outcome r); simpl; lia.
Qed.

(** X16.  Every status that [doHandleImages] writes is one of the six
    codes of [errorcodes], never a number of its own; and every
    body it writes is the object with the two keys [code] and [message]
    where [code] is the name of the status written just before. *)
Theorem doHandleImages_status_codes (r : Request) :
  (forall code, WriteHeader code ∈ doHandleImages' r ->
     exists name, (code, name) ∈ error_names errorcodes) /\
  (forall content, WriteJSON content ∈ doHandleImages' r ->
     exists code name message,
       (code, name) ∈ error_names errorcodes /\
       WriteHeader code ∈ doHandleImages' r /\
       Some content = error_content name message).
Proof.
  assert (forall code name, (code, name) ∈ credential_errors errorcodes ->
                            (code, name) ∈ error_names errorcodes) as Hsub.
  { intros code name. unfold credential_errors.
    rewrite !elem_of_cons, elem_of_nil. intros [[= -> ->]|[[= -> ->]|[]]]; in_names. }
  destruct (doHandleImages_outcome r) as [| |op| |code name message Hin
                                          |line code name message Hin].
  - split; intros x H; now apply elem_of_nil in H.
  - split; intros x H; apply list_elem_of_singleton in H; discriminate H.
  - split; intros x H; apply list_elem_of_singleton in H; discriminate H.
  - split; intros x H; apply list_elem_of_singleton in H.
    + injection H as ->. exists "UnauthorizedError". in_names.
    + discriminate H.
  - split; intros x H; apply elem_of_sendResponse in H as [H|[H|[H|H]]];
      try discriminate H.
    + injection H as ->. eauto.
    + injection H as ->. exists code, name, message.
      split; [exact Hin | split; [|reflexivity]].
      apply elem_of_sendResponse. auto.
  - split; intros x H; apply elem_of_cons in H as [H|H]; try discriminate H;
      apply elem_of_sendResponse in H as [H|[H|[H|H]]]; try discriminate H.
    + injection H as ->. eauto.
    + injection H as ->. exists code, name, message.
      split; [auto | split; [|reflexivity]].
      apply list_elem_of_further, elem_of_sendResponse. auto.
Qed.

(** X17.  When [doHandleImages] calls an operation handler it does nothing
    else: no header, no status, no body and no log line of its own come
    before or after the call. *)
Theorem doHandleImages_call_alone (r : Request) (op : operation) :
  Call op ∈ doHandleImages' r -> doHandleImages' r = [Call op].
Proof.
  destruct (doHandleImages_outcome r) as [| |op'| |code name message Hin
                                          |line code name message Hin]; intros H.
  - now apply elem_of_nil in H.
  - apply list_elem_of_singleton in H. discriminate H.
  - apply list_elem_of_singleton in H. now injection H as ->.
  - apply list_elem_of_singleton in H. discriminate H.
  - apply elem_of_sendResponse in H as [H|[H|[H|H]]]; discriminate H.
  - apply elem_of_cons in H as [H|H]; [discriminate H|].
    apply elem_of_sendResponse in H as [H|[H|[H|H]]]; discriminate H.
Qed.

(** X18.  [doHandleImages] writes a log line only when it refuses the
    credentials of the request: the line is then the first thing it does,
    and the [UnauthorizedError] or [AccountDoesNotExist] response is all
    that follows. *)
Theorem doHandleImages_logs_refusals_only (r : Request) (line : string) :
  LogPrintf line ∈ doHandleImages' r ->
  exists code name message,
    (code, name) ∈ credential_errors errorcodes /\
    doHandleImages' r =
    LogPrintf line :: sendResponse code (error_content name message).
Proof.
  destruct (doHandleImages_outcome r) as [| |op'| |code name message Hin
                                          |line' code name message Hin]; intros H.
  - now apply elem_of_nil in H.
  - apply list_elem_of_singleton in H. discriminate H.
  - apply list_elem_of_singleton in H. discriminate H.
  - apply list_elem_of_singleton in H. discriminate H.
  - apply elem_of_sendResponse in H as [H|[H|[H|H]]]; discriminate H.
  - apply elem_of_cons in H as [H|H].
    + injection H as ->. eauto.
    + apply elem_of_sendResponse in H as [H|[H|[H|H]]]; discriminate H.
Qed.

(** X19.  [doHandleImages] never sets the [Content-Type] header before the
    status is written: in every response with a body the header is set
    after [WriteHeader]. *)
Theorem doHandleImages_content_type_late (r : Request) :
  sets_content_type_early (doHandleImages' r) = false /\
  (forall content, WriteJSON content ∈ doHandleImages' r ->
     exists (before : trace) (code : Z),
       doHandleImages' r =
       (before ++ [WriteHeader code;
                   HeaderSet "Content-Type" "application/json; charset=utf-8";
                   WriteJSON content])%list).
Proof.
  destruct (doHandleImages_outcome r) as [| |op'| |code name message Hin
                                          |line code name message Hin].
  - split; [reflexivity|]. intros c H. now apply elem_of_nil in H.
  - split; [reflexivity|]. intros c H.
    apply list_elem_of_singleton in H. discriminate H.
  - split; [reflexivity|]. intros c H.
    apply list_elem_of_singleton in H. discriminate H.
  - split; [reflexivity|]. intros c H.
    apply list_elem_of_singleton in H. discriminate H.
  - split; [reflexivity|]. intros c H.
    apply elem_of_sendResponse in H as [H|[H|[H|H]]]; try discriminate H.
    injection H as ->.
    exists [HeaderSet "Server" "Norbye Public Images Repo"], code. reflexivity.
  - split; [reflexivity|]. intros c H.
    apply elem_of_cons in H as [H|H]; [discriminate H|].
    apply elem_of_sendResponse in H as [H|[H|[H|H]]]; try discriminate H.
    injection H as ->.
    exists [LogPrintf line; HeaderSet "Server" "Norbye Public Images Repo"], code.
    reflexivity.
Qed.

(** The only panic is the index into an empty list of [action] values. *)
Lemma doHandleImages_panic (r : Request) :
  Panic ∈ doHandleImages' r ->
  (url_ParseQuery (RawQuery r)).1 !! "action" = Some [].
Proof.
  intros H. apply dec_stable. intros Hne.
  assert (forall t, answers_once t -> Panic ∉ t) as Hsafe.
  { destruct 1; intros Hin.
    - apply list_elem_of_singleton in Hin. discriminate Hin.
    - apply elem_of_sendResponse in Hin as [Hin|[Hin|[Hin|Hin]]]; discriminate Hin.
    - apply elem_of_cons in Hin as [Hin|Hin]; [discriminate Hin|].
      apply elem_of_sendResponse in Hin as [Hin|[Hin|[Hin|Hin]]]; discriminate Hin. }
  assert (forall code, Panic ∉ [WriteHeader code]) as Hbare.
  { intros code Hin. apply list_elem_of_singleton in Hin. discriminate Hin. }
  assert (forall a p q, Panic ∉ switch_action errorcodes a p q) as Hswitch.
  { intros a p q Hin. unfold switch_action in Hin.
    repeat match type of Hin with
           | context [String.eqb ?x ?y] => destruct (String.eqb x y)
           end;
      first [ now apply elem_of_nil in Hin
            | apply list_elem_of_singleton in Hin; discriminate Hin
            | apply elem_of_sendResponse in Hin as [Hin|[Hin|[Hin|Hin]]];
              discriminate Hin ]. }
  revert H. unfold doHandleImages.
  assert (forall b, Panic ∉
            dispatch configuration errorcodes os_Stat url_ParseQuery r b) as Hd.
  { intros b. unfold dispatch.
    destruct (url_ParseQuery (RawQuery r)) as [parameters [e|]];
      [apply Hsafe; constructor|].
    simpl in Hne.
    destruct (_ || _); [apply Hsafe, doHandleGetImages_answers|].
    destruct (String.eqb (Method r) "DELETE").
    { destruct b; [apply Hsafe, doHandleDeleteImages_answers | apply Hbare]. }
    destruct (String.eqb (Method r) "POST").
    { destruct b; [|apply Hbare].
      unfold doHandlePostImages.
      string_test "/images" (Path r); [apply Hsafe; constructor|].
      destruct (splitImagesUrl (Path r)) as [[uuid file] [e|]];
        [apply Hsafe; constructor|].
      destruct (os_Stat _) as [err|];
        [destruct (IsNotExist err); apply Hsafe; constructor|].
      string_case file "/icon"; [apply Hsafe; constructor|].
      string_case file "/acl"; [apply Hsafe; constructor|].
      string_case file EmptyString; [|apply Hsafe; constructor].
      destruct (parameters !! "action") as [[|action0 rest]|];
        [congruence | apply Hswitch | apply Hsafe; constructor]. }
    destruct (String.eqb (Method r) "PUT").
    { destruct b; [apply Hsafe, doHandlePutImages_answers | apply Hbare]. }
    apply not_elem_of_nil. }
  destruct (BasicAuth r) as [[username password]|]; [|apply Hd].
  destruct (userdb_loop _ _ _ _ _) as [sent|found] eqn:L.
  - apply userdb_loop_returned in L as ->. apply Hsafe. repeat constructor.
  - destruct found; simpl; [apply Hd | apply Hsafe; repeat constructor].
Qed.

(** X14.  [doHandleImages] does not panic: its one index expression,
    [action[0]], is in range as long as the [action] key of the parsed
    query, when present, has a value, which is how [url.ParseQuery] builds
    its map. *)
Theorem doHandleImages_no_panic (r : Request) :
  (url_ParseQuery (RawQuery r)).1 !! "action" <> Some [] ->
  Panic ∉ doHandleImages' r.
Proof. intros Hne H. now apply Hne, doHandleImages_panic. Qed.

End Outcomes.

Lemma doHandleImages_no_panic_witness :
  Panic ∉ doHandleImages sample_configuration sample_errorcodes sample_Stat
            sample_ParseQuery
            {| Method := "POST"; Path := "/images/u";
               RawQuery := "action=activate"; BasicAuth := Some ("b", "3") |}.
Proof.
  apply (doHandleImages_no_panic sample_configuration sample_errorcodes
           sample_Stat sample_ParseQuery
           {| Method := "POST"; Path := "/images/u";
              RawQuery := "action=activate"; BasicAuth := Some ("b", "3") |}).
  vm_compute. discriminate.
Defined.

Lemma doHandleImages_call_alone_witness :
  doHandleImages sample_configuration sample_errorcodes sample_Stat
    sample_ParseQuery
    {| Method := "PUT"; Path := "/images/u/file"; RawQuery := EmptyString;
       BasicAuth := Some ("b", "3") |} =
  [Call (AddImageFile ∅ "/data/u")].
Proof.
  apply (doHandleImages_call_alone sample_configuration sample_errorcodes
           sample_Stat sample_ParseQuery
           {| Method := "PUT"; Path := "/images/u/file";
              RawQuery := EmptyString; BasicAuth := Some ("b", "3") |}
           (AddImageFile ∅ "/data/u")).
  apply list_elem_of_here.
Defined.

Lemma doHandleImages_logs_refusals_only_witness :
  exists code name message,
    (code, name) ∈ credential_errors sample_errorcodes /\
    doHandleImages sample_configuration sample_errorcodes sample_Stat
      sample_ParseQuery
      {| Method := "DELETE"; Path := "/images/u"; RawQuery := EmptyString;
         BasicAuth := Some ("b", "4") |} =
    LogPrintf "Invalid username password combo for b" ::
    sendResponse code (error_content name message).
Proof.
  apply (doHandleImages_logs_refusals_only sample_configuration
           sample_errorcodes sample_Stat sample_ParseQuery
           {| Method := "DELETE"; Path := "/images/u"; RawQuery := EmptyString;
              BasicAuth := Some ("b", "4") |}
           "Invalid username password combo for b").
  apply list_elem_of_here.
Defined.

(** ** What start-up does *)

(** Case analysis on the membership of a list written out. *)
Ltac members H :=
  rewrite ?elem_of_cons, ?elem_of_nil in H;
  repeat (destruct H as [H|H]; [try discriminate H|]);
  try discriminate H; try contradiction.

(** What the four registrations come to: no directory is created; there
    is a panic exactly when the mux refuses a pattern; the server listens
    exactly when it refuses none, and then the trace is the four
    registrations and the call that serves. *)
Lemma register_and_serve_outcome
    (refuses : list string -> string -> option string)
    (itoa : Z -> string) (conf : Configuration) :
  let t := register_and_serve refuses itoa conf in
  (forall path perm, MkdirAll path perm ∉ t) /\
  ((exists message, StartupPanic message ∈ t) <->
   ~ registrations_accepted refuses) /\
  (forall addr, ListenAndServe addr ∈ t <->
                registrations_accepted refuses /\
                addr = ":" +:+ itoa (Port conf)) /\
  (registrations_accepted refuses -> t = registered_and_serving itoa conf).
Proof.
  intros t. unfold t, register_and_serve, http_HandleFunc,
    registrations_accepted, registered_and_serving.
  destruct (refuses [] "/images") as [m1|];
    [|destruct (refuses ["/images"] "/images/") as [m2|];
      [|destruct (refuses ["/images"; "/images/"] "/channels") as [m3|];
        [|destruct (refuses ["/images"; "/images/"; "/channels"] "/ping")
            as [m4|]]]].
  1-4: split; [|split; [|split]];
    [ intros path perm H; members H
    | split; [intros _ (H1 & H2 & H3 & H4); congruence | intros _; eexists];
      repeat first [apply list_elem_of_here | apply list_elem_of_further]
    | intros addr; split;
      [ intros H; members H | intros ((H1 & H2 & H3 & H4) & _); congruence ]
    | intros (H1 & H2 & H3 & H4); congruence ].
  split; [|split; [|split]].
  - intros path perm H. members H.
  - split; [intros [m H]; members H | intros H; elim H; auto].
  - intros addr. split.
    + intros H. members H. injection H as ->. auto.
    + intros (_ & ->).
      repeat first [apply list_elem_of_here | apply list_elem_of_further].
  - reflexivity.
Qed.

(** X20.  [StartImageServer] creates the data directory exactly when
    [os.Stat] reports that it does not exist, and nothing else.  It panics
    exactly when that creation fails or when [http.HandleFunc] refuses one
    of its four patterns; when the creation fails it registers no handler
    and does not listen.  It listens exactly when the creation did not
    fail, a failure of [os.Stat] of another kind included, and the mux took
    the four patterns: it has then registered [/images], [/images/],
    [/channels] and [/ping], in this order, and listens on the configured
    port. *)
Theorem StartImageServer_outcome (os_Stat : string -> option error)
    (os_MkdirAll : string -> Z -> option error)
    (refuses : list string -> string -> option string)
    (strconv_Itoa : Z -> string) (conf : Configuration) :
  let t := StartImageServer os_Stat os_MkdirAll refuses strconv_Itoa conf in
  let missing :=
    exists err, os_Stat (Datadir conf) = Some err /\ IsNotExist err = true in
  let failed := exists err, os_MkdirAll (Datadir conf) 511%Z = Some err in
  (forall path perm,
     MkdirAll path perm ∈ t <->
     missing /\ path = Datadir conf /\ perm = 511%Z) /\
  ((exists message, StartupPanic message ∈ t) <->
   (missing /\ failed) \/ ~ registrations_accepted refuses) /\
  (missing /\ failed ->
     forall e, e ∈ t -> forall pattern h addr,
       e <> HandleFunc pattern h /\ e <> ListenAndServe addr) /\
  (forall addr,
     ListenAndServe addr ∈ t <->
     ~ (missing /\ failed) /\ registrations_accepted refuses /\
     addr = ":" +:+ strconv_Itoa (Port conf)) /\
  (~ (missing /\ failed) -> registrations_accepted refuses ->
     exists before,
       t = (before ++ registered_and_serving strconv_Itoa conf)%list).
Proof.
  intros t missing failed. unfold t, missing, failed, StartImageServer.
  destruct (register_and_serve_outcome refuses strconv_Itoa conf)
    as (Hmk & Hpanic & Hlisten & Hall).
  cbv zeta in Hmk, Hpanic, Hlisten, Hall.
  set (rs := register_and_serve refuses strconv_Itoa conf) in *.
  destruct (os_Stat (Datadir conf)) as [err|] eqn:Hstat;
    [destruct (IsNotExist err) eqn:Hne;
       [destruct (os_MkdirAll (Datadir conf) 511%Z) as [err'|] eqn:Hmkdir|]|].
  - (* the directory is missing and cannot be created *)
    split; [|split; [|split; [|split]]].
    + intros path perm. split.
      * intros H. members H. injection H as -> ->. eauto.
      * intros (_ & -> & ->). apply list_elem_of_further, list_elem_of_here.
    + split; [intros _; left; split; eauto|]. intros _. eexists.
      apply list_elem_of_further, list_elem_of_further, list_elem_of_here.
    + intros _ e H pattern h addr.
      members H; subst e; split; discriminate.
    + intros addr. split; [intros H; members H|].
      intros (H & _). elim H. eauto.
    + intros H. elim H. eauto.
  - (* the directory is missing and is created *)
    assert (~ ((exists e, Some err = Some e /\ IsNotExist e = true) /\
               (exists e, @None error = Some e))) as Hok
      by (intros [_ [e He]]; discriminate He).
    split; [|split; [|split; [|split]]].
    + intros path perm. rewrite !elem_of_cons. split.
      * intros [H|[H|H]]; [discriminate H | | now apply Hmk in H].
        injection H as -> ->. eauto.
      * intros (_ & -> & ->). auto.
    + rewrite <- Hpanic. split.
      * intros [m H]. rewrite !elem_of_cons in H.
        destruct H as [H|[H|H]]; [discriminate H | discriminate H | eauto].
      * intros [[_ [e He]]|[m H]]; [discriminate He|].
        exists m. rewrite !elem_of_cons. auto.
    + intros H. now elim Hok.
    + intros addr. rewrite !elem_of_cons, Hlisten. split.
      * intros [H|[H|H]]; [discriminate H | discriminate H | tauto].
      * tauto.
    + intros _ Hacc. rewrite (Hall Hacc).
      exists [AssignConfiguration conf; MkdirAll (Datadir conf) 511%Z].
      reflexivity.
  - (* os.Stat fails for another reason *)
    assert (~ exists e, Some err = Some e /\ IsNotExist e = true) as Hok
      by (intros [e [He Hn]]; congruence).
    split; [|split; [|split; [|split]]].
    + intros path perm. rewrite !elem_of_cons. split.
      * intros [H|H]; [discriminate H | now apply Hmk in H].
      * intros (H & _). now elim Hok.
    + rewrite <- Hpanic. split.
      * intros [m H]. rewrite !elem_of_cons in H.
        destruct H as [H|H]; [discriminate H | eauto].
      * intros [[H _]|[m H]]; [now elim Hok|].
        exists m. rewrite !elem_of_cons. auto.
    + intros [H _]. now elim Hok.
    + intros addr. rewrite !elem_of_cons, Hlisten. split.
      * intros [H|H]; [discriminate H | tauto].
      * tauto.
    + intros _ Hacc. rewrite (Hall Hacc).
      exists [AssignConfiguration conf]. reflexivity.
  - (* the directory exists *)
    assert (~ exists e, @None error = Some e /\ IsNotExist e = true) as Hok
      by (intros [e [He Hn]]; discriminate He).
    split; [|split; [|split; [|split]]].
    + intros path perm. rewrite !elem_of_cons. split.
      * intros [H|H]; [discriminate H | now apply Hmk in H].
      * intros (H & _). now elim Hok.
    + rewrite <- Hpanic. split.
      * intros [m H]. rewrite !elem_of_cons in H.
        destruct H as [H|H]; [discriminate H | eauto].
      * intros [[H _]|[m H]]; [now elim Hok|].
        exists m. rewrite !elem_of_cons. auto.
    + intros [H _]. now elim Hok.
    + intros addr. rewrite !elem_of_cons, Hlisten. split.
      * intros [H|H]; [discriminate H | tauto].
      * tauto.
    + intros _ Hacc. rewrite (Hall Hacc).
      exists [AssignConfiguration conf]. reflexivity.
Qed.

(** ** Paths that do not parse *)

(** X21.  A path that [splitImagesUrl] rejects is answered
    [InvalidParameter] by each of the four handlers, before any look at
    the file system or at the [action] parameter: DELETE, PUT and POST say
    [Failed to decode URL], GET passes on the text of the parser's error;
    the path [/images], which GET and POST serve as the collection, is
    such a path for DELETE and PUT. *)
Theorem unparsable_path_refused (configuration : Configuration)
    (errorcodes : Errorcodes) (os_Stat : string -> option error)
    (r : Request) (params : Values) (uuid file : string) (e : error) :
  splitImagesUrl (Path r) = (uuid, file, Some e) ->
  doHandleDeleteImages configuration errorcodes r params =
    sendResponse (InvalidParameter errorcodes)
      (error_content "InvalidParameter" "Failed to decode URL") /\
  doHandlePutImages configuration errorcodes r params =
    sendResponse (InvalidParameter errorcodes)
      (error_content "InvalidParameter" "Failed to decode URL") /\
  (Path r <> "/images" ->
   doHandlePostImages configuration errorcodes os_Stat r params =
     sendResponse (InvalidParameter errorcodes)
       (error_content "InvalidParameter" "Failed to decode URL") /\
   doHandleGetImages configuration errorcodes os_Stat r params =
     sendResponse (InvalidParameter errorcodes)
       (error_content "InvalidParameter" "Invalid url")).
Proof.
  intros Hsplit.
  destruct (splitImagesUrl_error _ _ _ _ Hsplit) as (-> & _ & _).
  unfold doHandleDeleteImages, doHandlePutImages, doHandlePostImages,
    doHandleGetImages.
  rewrite Hsplit. split; [reflexivity | split; [reflexivity|]].
  intros Hpath.
  assert ((Path r =? "/images")%string = false) as ->
    by now apply String.eqb_neq.
  assert (("/images" =? Path r)%string = false) as ->
    by (apply String.eqb_neq; congruence).
  split; reflexivity.
Qed.

Lemma unparsable_path_refused_witness :
  doHandleDeleteImages sample_configuration sample_errorcodes
    {| Method := "DELETE"; Path := "/images"; RawQuery := EmptyString;
       BasicAuth := Some ("b", "3") |} ∅ =
  sendResponse 422 (error_content "InvalidParameter" "Failed to decode URL") /\
  doHandleGetImages sample_configuration sample_errorcodes sample_Stat
    {| Method := "GET"; Path := "/images/"; RawQuery := EmptyString;
       BasicAuth := None |} ∅ =
  sendResponse 422 (error_content "InvalidParameter" "Invalid url").
Proof.
  split.
  - apply (unparsable_path_refused sample_configuration sample_errorcodes
             sample_Stat
             {| Method := "DELETE"; Path := "/images"; RawQuery := EmptyString;
                BasicAuth := Some ("b", "3") |} ∅
             EmptyString EmptyString InvalidURL eq_refl).
  - apply (unparsable_path_refused sample_configuration sample_errorcodes
             sample_Stat
             {| Method := "GET"; Path := "/images/"; RawQuery := EmptyString;
                BasicAuth := None |} ∅
             EmptyString EmptyString InvalidURL eq_refl).
    discriminate.
Defined.
